(** * Fall detection on the MPU-6050: the sketch
      [arduino/gyro_MPU_6050_logic/gyro_MPU_6050_logic.ino]

    The sketch samples a 6-axis inertial sensor at 200 Hz, fuses the
    readings into a pitch/roll estimate with a complementary filter and
    drives a three-state classifier (NORMAL, IMPACT_DETECTED, POST_FALL)
    that prints a line when a fall is confirmed.

    Modelling decisions.
    - [unsigned long] is the 32-bit unsigned type of the Arduino boards:
      a [Z] in [0, 2^32) whose subtraction wraps around ([usub]).
    - [float]/[double] arithmetic is kept abstract behind the interface
      [FloatOps]: the classifier only branches on the outcome of
      comparisons, so its properties hold for whatever arithmetic the
      board provides.  Ideal real arithmetic ([R]) is one instance; it is
      used to run concrete scenarios and to compare the filter with the
      closed formulas of the specification.
    - [millis()] and [micros()] read a hardware clock; every call site is
      executed at most once per pass of [loop()], so a pass receives one
      reading per call site ([Clock]).
    - [Serial.println] appends a line to the output of the pass. *)

From Stdlib Require Import ZArith QArith List Bool Lia Ascii String.
From Stdlib Require Import Reals Lra Machin.
From Stdlib Require Import Psatz.
Import ListNotations.

Local Open Scope Z_scope.
Local Open Scope string_scope.

(* ================================================================== *)
(** ** 32-bit unsigned timestamps *)

Definition ULONG_MODULUS : Z := 2 ^ 32.

(** [a - b] on [unsigned long]. *)
Definition usub (a b : Z) : Z := (a - b) mod ULONG_MODULUS.

(* ================================================================== *)
(** ** The arithmetic the sketch relies on *)

(** What the sketch asks of its floating-point type: literals, the
    conversion from integers, the four operations, [sqrt] and [atan2]
    from the math library, Arduino's [abs], and the two comparisons. *)
Class FloatOps (F : Type) : Type := {
  flit   : Q -> F;          (* a decimal literal of the source *)
  of_Z   : Z -> F;          (* integer to floating point *)
  fadd   : F -> F -> F;
  fsub   : F -> F -> F;
  fmul   : F -> F -> F;
  fdiv   : F -> F -> F;
  fabs   : F -> F;
  fsqrt  : F -> F;
  fatan2 : F -> F -> F;
  fgtb   : F -> F -> bool;  (* a > b *)
  fltb   : F -> F -> bool   (* a < b *)
}.

Declare Scope float_scope.
Delimit Scope float_scope with fl.
Infix "+" := fadd : float_scope.
Infix "-" := fsub : float_scope.
Infix "*" := fmul : float_scope.
Infix "/" := fdiv : float_scope.
Infix ">?" := fgtb : float_scope.
Infix "<?" := fltb : float_scope.

(* ================================================================== *)
(** ** Program state, inputs and outputs *)

Inductive FallState : Type := NORMAL | IMPACT_DETECTED | POST_FALL.

(** One line written with [Serial.println]. *)
Inductive Output : Type := Println (line : string).

Definition FALL_LINE : string := "!!! FALL DETECTED !!!".

Definition is_fall (o : Output) : bool :=
  match o with Println l => String.eqb l FALL_LINE end.

(** Number of fall events in an output. *)
Definition fall_count (out : list Output) : nat :=
  List.length (List.filter is_fall out).

(** The clock readings of one pass of [loop()], one per call site. *)
Record Clock : Type := {
  micros_gate    : Z;  (* line 51 *)
  micros_stamp   : Z;  (* line 54 *)
  micros_init    : Z;  (* line 85, run by the first sampled pass only *)
  micros_dt      : Z;  (* line 86 *)
  micros_last    : Z;  (* line 87 *)
  millis_impact  : Z;  (* line 97 *)
  millis_still   : Z;  (* line 111 *)
  millis_confirm : Z;  (* line 113 *)
  millis_timeout : Z   (* line 122 *)
}.

(** A pass during which [millis()] reads [ms] throughout and [micros()]
    reads [1000 * ms]. *)
Definition at_ms (ms : Z) : Clock :=
  {| micros_gate := 1000 * ms; micros_stamp := 1000 * ms;
     micros_init := 1000 * ms; micros_dt := 1000 * ms;
     micros_last := 1000 * ms;
     millis_impact := ms; millis_still := ms;
     millis_confirm := ms; millis_timeout := ms |}.

Section Sketch.

Context {F : Type} {ops : FloatOps F}.
Local Open Scope float_scope.

(** The tunable parameters, lines 8-13. *)
Definition SAMPLE_RATE_HZ      : Z := 200.
Definition IMPACT_THRESHOLD_G  : F := flit (28 # 10).
Definition ANGLE_THRESHOLD_DEG : F := flit (45 # 1).
Definition MOTION_THRESHOLD    : F := flit (15 # 100).
Definition INACTIVITY_TIME_MS  : Z := 3000.
Definition IMPACT_TIMEOUT_MS   : Z := 6000.

(** The literal the sketch uses to turn radians into degrees. *)
Definition RAD_TO_DEG : F := flit (572958 # 10000).

(** [sensors_vec_t]: the three components of a reading. *)
Record Vec3 : Type := { x : F; y : F; z : F }.

(** What [mpu.getEvent(&a, &g, &temp)] delivers and the sketch reads. *)
Record Sample : Type := { acceleration : Vec3; gyro : Vec3 }.

(** The global variables of the sketch, and the function-local static
    [lastTime] of [loop()], which is uninitialised ([None]) until the
    first sampled pass. *)
Record Globals : Type := {
  state            : FallState;
  lastSampleMicros : Z;
  impactTime       : Z;
  stillStartTime   : Z;
  pitch            : F;
  roll             : F;
  pitchBefore      : F;
  rollBefore       : F;
  lastTime         : option Z
}.

(** Lines 22-30. *)
Definition initial : Globals :=
  {| state := NORMAL; lastSampleMicros := 0; impactTime := 0;
     stillStartTime := 0; pitch := of_Z 0; roll := of_Z 0;
     pitchBefore := of_Z 0; rollBefore := of_Z 0; lastTime := None |}.

(** Assignments to one global. *)
Definition set_state (v : FallState) (g : Globals) : Globals :=
  {| state := v; lastSampleMicros := lastSampleMicros g;
     impactTime := impactTime g; stillStartTime := stillStartTime g;
     pitch := pitch g; roll := roll g; pitchBefore := pitchBefore g;
     rollBefore := rollBefore g; lastTime := lastTime g |}.

Definition set_lastSampleMicros (v : Z) (g : Globals) : Globals :=
  {| state := state g; lastSampleMicros := v;
     impactTime := impactTime g; stillStartTime := stillStartTime g;
     pitch := pitch g; roll := roll g; pitchBefore := pitchBefore g;
     rollBefore := rollBefore g; lastTime := lastTime g |}.

Definition set_impactTime (v : Z) (g : Globals) : Globals :=
  {| state := state g; lastSampleMicros := lastSampleMicros g;
     impactTime := v; stillStartTime := stillStartTime g;
     pitch := pitch g; roll := roll g; pitchBefore := pitchBefore g;
     rollBefore := rollBefore g; lastTime := lastTime g |}.

Definition set_stillStartTime (v : Z) (g : Globals) : Globals :=
  {| state := state g; lastSampleMicros := lastSampleMicros g;
     impactTime := impactTime g; stillStartTime := v;
     pitch := pitch g; roll := roll g; pitchBefore := pitchBefore g;
     rollBefore := rollBefore g; lastTime := lastTime g |}.

Definition set_orientation (p r : F) (g : Globals) : Globals :=
  {| state := state g; lastSampleMicros := lastSampleMicros g;
     impactTime := impactTime g; stillStartTime := stillStartTime g;
     pitch := p; roll := r; pitchBefore := pitchBefore g;
     rollBefore := rollBefore g; lastTime := lastTime g |}.

Definition set_baseline (p r : F) (g : Globals) : Globals :=
  {| state := state g; lastSampleMicros := lastSampleMicros g;
     impactTime := impactTime g; stillStartTime := stillStartTime g;
     pitch := pitch g; roll := roll g; pitchBefore := p;
     rollBefore := r; lastTime := lastTime g |}.

Definition set_lastTime (v : Z) (g : Globals) : Globals :=
  {| state := state g; lastSampleMicros := lastSampleMicros g;
     impactTime := impactTime g; stillStartTime := stillStartTime g;
     pitch := pitch g; roll := roll g; pitchBefore := pitchBefore g;
     rollBefore := rollBefore g; lastTime := Some v |}.

(* ------------------------------------------------------------------ *)
(** *** Derived quantities, lines 59-82 *)

(** Lines 60-64. *)
Definition accelMag (s : Sample) : F :=
  let a := acceleration s in
  fsqrt (x a * x a + y a * y a + z a * z a) / flit (981 # 100).

(** Lines 67-70. *)
Definition gyroMag (s : Sample) : F :=
  let w := gyro s in
  fabs (x w) + fabs (y w) + fabs (z w).

(** Lines 73-77. *)
Definition pitchAcc (s : Sample) : F :=
  let a := acceleration s in
  fatan2 (x a) (fsqrt (y a * y a + z a * z a)) * RAD_TO_DEG.

(** Lines 79-82. *)
Definition rollAcc (s : Sample) : F :=
  let a := acceleration s in
  fatan2 (y a) (z a) * RAD_TO_DEG.

(* ------------------------------------------------------------------ *)
(** *** Complementary filter, lines 85-90 *)

(** Line 86: the static [lastTime] is initialised by the first pass that
    reaches line 85. *)
Definition elapsed (c : Clock) (g : Globals) : F :=
  let last := match lastTime g with
              | Some t => t
              | None => micros_init c
              end in
  of_Z (usub (micros_dt c) last) / flit (1000000 # 1).

(** Lines 89-90 for a given [dt]: the new pitch and roll. *)
Definition filter (dt : F) (s : Sample) (p r : F) : F * F :=
  (flit (98 # 100) * (p + y (gyro s) * dt * RAD_TO_DEG)
     + flit (2 # 100) * pitchAcc s,
   flit (98 # 100) * (r + x (gyro s) * dt * RAD_TO_DEG)
     + flit (2 # 100) * rollAcc s).

(** Lines 85-90. *)
Definition update_orientation (c : Clock) (s : Sample) (g : Globals)
  : Globals :=
  let dt := elapsed c g in
  let g1 := set_lastTime (micros_last c) g in
  let pr := filter dt s (pitch g1) (roll g1) in
  set_orientation (fst pr) (snd pr) g1.

(* ------------------------------------------------------------------ *)
(** *** The state machine, lines 93-135 *)

(** Lines 139-141. *)
Definition triggerFall : list Output := [Println FALL_LINE].

(** Lines 106-107. *)
Definition angle_exceeded (g : Globals) : bool :=
  (fabs (pitch g - pitchBefore g) >? ANGLE_THRESHOLD_DEG)
  || (fabs (roll g - rollBefore g) >? ANGLE_THRESHOLD_DEG).

(** Lines 110-111. *)
Definition start_still_timer (c : Clock) (g : Globals) : Globals :=
  if (stillStartTime g =? 0)%Z
  then set_stillStartTime (millis_still c) g
  else g.

(** Line 113, evaluated after lines 110-111. *)
Definition inactivity_elapsed (c : Clock) (g : Globals) : bool :=
  (INACTIVITY_TIME_MS <?
     usub (millis_confirm c) (stillStartTime (start_still_timer c g)))%Z.

(** Lines 106-120. *)
Definition stillness_block (c : Clock) (gm : F) (g : Globals)
  : Globals * list Output :=
  if angle_exceeded g then
    if gm <? MOTION_THRESHOLD then
      let g1 := start_still_timer c g in
      if inactivity_elapsed c g
      then (set_state POST_FALL g1, triggerFall)
      else (g1, [])
    else (set_stillStartTime 0 g, [])
  else (g, []).

(** Line 122. *)
Definition timed_out (c : Clock) (g : Globals) : bool :=
  (IMPACT_TIMEOUT_MS <? usub (millis_timeout c) (impactTime g))%Z.

(** Lines 122-125. *)
Definition timeout_block (c : Clock) (g : Globals) : Globals :=
  if timed_out c g
  then set_stillStartTime 0 (set_state NORMAL g)
  else g.

(** The [switch], run with the magnitudes [am] and [gm] of this pass and
    the orientation already stored in [g]. *)
Definition classify (c : Clock) (am gm : F) (g : Globals)
  : Globals * list Output :=
  match state g with
  | NORMAL =>
      if am >? IMPACT_THRESHOLD_G then
        (set_state IMPACT_DETECTED
           (set_baseline (pitch g) (roll g)
              (set_impactTime (millis_impact c) g)),
         [Println "IMPACT detected"])
      else (g, [])
  | IMPACT_DETECTED =>
      let r := stillness_block c gm g in
      (timeout_block c (fst r), snd r)
  | POST_FALL =>
      if gm >? MOTION_THRESHOLD * of_Z 2 then
        (set_stillStartTime 0 (set_state NORMAL g), [])
      else (g, [])
  end.

(* ------------------------------------------------------------------ *)
(** *** [loop()] *)

(** Lines 54-135: a pass that samples the sensor, here called a tick. *)
Definition tick (c : Clock) (s : Sample) (g : Globals)
  : Globals * list Output :=
  let g1 := set_lastSampleMicros (micros_stamp c) g in
  let g2 := update_orientation c s g1 in
  classify c (accelMag s) (gyroMag s) g2.

(** Line 51. *)
Definition too_early (c : Clock) (g : Globals) : bool :=
  (usub (micros_gate c) (lastSampleMicros g) <? 1000000 / SAMPLE_RATE_HZ)%Z.

(** Lines 50-136. *)
Definition loop (c : Clock) (s : Sample) (g : Globals)
  : Globals * list Output :=
  if too_early c g then (g, []) else tick c s g.

(** Successive passes of [loop()], with the lines they print. *)
Fixpoint run (ins : list (Clock * Sample)) (g : Globals)
  : Globals * list Output :=
  match ins with
  | [] => (g, [])
  | (c, s) :: rest =>
      let r1 := loop c s g in
      let r2 := run rest (fst r1) in
      (fst r2, (snd r1 ++ snd r2)%list)
  end.

End Sketch.

(* ================================================================== *)
(** ** The sketch as a whole: [setup()] followed by [loop()] forever *)

Section Board.

Context {F : Type} {ops : FloatOps F}.

(** Where control is inside [setup()], lines 33-47. *)
Inductive SetupPc : Type :=
| AtBegin       (* line 37, about to call [mpu.begin()] *)
| Spinning      (* line 39, inside [while (1);] *)
| Configuring.  (* lines 42-46 *)

(** The Arduino core calls [setup()] once and then [loop()] forever. *)
Inductive Phase : Type :=
| InSetup (pc : SetupPc)
| InLoop.

Record Board : Type := {
  phase   : Phase;
  globals : @Globals F;
  serial  : list Output
}.

Definition power_on : Board :=
  {| phase := InSetup AtBegin; globals := initial; serial := [] |}.

(** One step of [setup()]: where control goes next ([None] when
    [setup()] returns) and what the step prints.  [begin_ok] is what
    [mpu.begin()] answers.  The calls that only configure the serial
    port, the bus and the sensor (lines 34-35 and 42-44) have no effect
    on the globals. *)
Definition setup (begin_ok : bool) (pc : SetupPc)
  : option SetupPc * list Output :=
  match pc with
  | AtBegin =>
      if begin_ok then (Some Configuring, [])
      else (Some Spinning, [Println "MPU6050 not found!"])
  | Spinning => (Some Spinning, [])
  | Configuring => (None, [Println "Fall detection ready"])
  end.

(** One step of the board; [c] and [s] are the clock and the sensor as
    [loop()] would see them at this step. *)
Definition board_step (begin_ok : bool) (c : Clock) (s : Sample)
  (b : Board) : Board :=
  match phase b with
  | InSetup pc =>
      let r := setup begin_ok pc in
      {| phase := match fst r with
                  | Some pc' => InSetup pc'
                  | None => InLoop
                  end;
         globals := globals b;
         serial := (serial b ++ snd r)%list |}
  | InLoop =>
      let r := loop c s (globals b) in
      {| phase := InLoop; globals := fst r;
         serial := (serial b ++ snd r)%list |}
  end.

(** The board after [n] steps in the environment [env]. *)
Fixpoint board_after (begin_ok : bool) (env : nat -> Clock * Sample)
  (n : nat) : Board :=
  match n with
  | O => power_on
  | S k => board_step begin_ok (fst (env k)) (snd (env k))
             (board_after begin_ok env k)
  end.

(** [setup()] has returned to the Arduino core. *)
Definition setup_returned (b : Board) : bool :=
  match phase b with
  | InSetup _ => false
  | InLoop => true
  end.

End Board.

(* ================================================================== *)
(** ** Vocabulary of the statements *)

Section Vocabulary.

Context {F : Type} {ops : FloatOps F}.
Local Open Scope float_scope.

(** The globals as the [switch] of a tick finds them: the sample stamp
    and the orientation estimate are those of this tick. *)
Definition sampled (c : Clock) (s : Sample) (g : Globals) : @Globals F :=
  update_orientation c s (set_lastSampleMicros (micros_stamp c) g).

(** The device is still on this tick, line 109. *)
Definition still (s : Sample) : bool := gyroMag s <? MOTION_THRESHOLD.

(** The call of [triggerFall()] on line 114 is reached. *)
Definition confirms (c : Clock) (s : Sample) (g : Globals) : bool :=
  angle_exceeded (sampled c s g) && still s
  && inactivity_elapsed c (sampled c s g).

(** 1 while an impact episode is open, 0 otherwise. *)
Definition open_episode (g : @Globals F) : nat :=
  match state g with IMPACT_DETECTED => 1 | _ => 0 end.

(** Number of passes of a run that move NORMAL to IMPACT_DETECTED, that
    is, the number of impact episodes the run opens. *)
Fixpoint impacts (ins : list (Clock * Sample)) (g : @Globals F) : nat :=
  match ins with
  | [] => O
  | (c, s) :: rest =>
      let g' := fst (loop c s g) in
      ((match state g, state g' with
        | NORMAL, IMPACT_DETECTED => 1
        | _, _ => 0
        end) + impacts rest g')%nat
  end.

(** Every pass of the run ends in IMPACT_DETECTED. *)
Fixpoint stays_armed (ins : list (Clock * Sample)) (g : @Globals F) : Prop :=
  match ins with
  | [] => True
  | (c, s) :: rest =>
      state (fst (loop c s g)) = IMPACT_DETECTED
      /\ stays_armed rest (fst (loop c s g))
  end.

(** On every tick of the run neither the confirmation of line 113 nor
    the timeout of line 122 fires. *)
Fixpoint pending (ins : list (Clock * Sample)) (g : @Globals F) : Prop :=
  match ins with
  | [] => True
  | (c, s) :: rest =>
      (too_early c g = true
       \/ (confirms c s g = false /\ timed_out c g = false))
      /\ pending rest (fst (loop c s g))
  end.

(** Every tick of the run reads a gyroscope magnitude that is not above
    twice the motion threshold. *)
Definition all_quiet (ins : list (Clock * @Sample F)) : Prop :=
  Forall (fun cs =>
            (gyroMag (snd cs) >? MOTION_THRESHOLD * of_Z 2) = false) ins.

End Vocabulary.

(* ================================================================== *)
(** ** Ideal arithmetic: the real numbers as an instance *)

Definition Rgtb (a b : R) : bool := if Rgt_dec a b then true else false.
Definition Rltb (a b : R) : bool := if Rlt_dec a b then true else false.

(** The two-argument arctangent of the C math library on the reals:
    the angle of the point [(x, y)], in (-PI, PI]. *)
Definition Ratan2 (y x : R) : R :=
  if Rlt_dec 0 x then atan (y / x)
  else if Rlt_dec x 0 then
    (if Rle_dec 0 y then atan (y / x) + PI else atan (y / x) - PI)
  else if Rlt_dec 0 y then PI / 2
  else if Rlt_dec y 0 then - (PI / 2)
  else 0.

#[export] Instance RealOps : FloatOps R := {|
  flit := Q2R; of_Z := IZR;
  fadd := Rplus; fsub := Rminus; fmul := Rmult; fdiv := Rdiv;
  fabs := Rabs; fsqrt := sqrt; fatan2 := Ratan2;
  fgtb := Rgtb; fltb := Rltb
|}.

(** The orientation update in the words of the specification, for a
    degrees-per-radian factor [k]: accelerometer-only angles, gyroscope
    integration, and the 0.98/0.02 blend. *)
Definition spec_update (k dt : R) (s : @Sample R) (p r : R) : R * R :=
  let a := acceleration s in
  let w := gyro s in
  let pitchAcc := (Ratan2 (x a) (sqrt (Rsqr (y a) + Rsqr (z a))) * k)%R in
  let rollAcc := (Ratan2 (y a) (z a) * k)%R in
  let pitchGyro := (p + y w * dt * k)%R in
  let rollGyro := (r + x w * dt * k)%R in
  ((0.98 * pitchGyro + 0.02 * pitchAcc)%R,
   (0.98 * rollGyro + 0.02 * rollAcc)%R).

(** The update the specification states, with 180/PI degrees per radian. *)
Definition spec_update_as_stated : R -> @Sample R -> R -> R -> R * R :=
  spec_update (180 / PI).

(* ------------------------------------------------------------------ *)
(** *** Concrete samples and runs *)

(** A reading whose acceleration points along the z axis. *)
Definition level (az gx gy gz : R) : @Sample R :=
  {| acceleration := {| x := 0; y := 0; z := az |};
     gyro := {| x := gx; y := gy; z := gz |} |}%R.

(** At rest: 1 g, 0.05 rad/s about the z axis. *)
Definition resting : @Sample R := level 9.81 0 0 0.05.
(** A shock of about 3.06 g. *)
Definition jolt : @Sample R := level 30 0 0 0.
(** Pitching at 2.5 rad/s, forwards and backwards. *)
Definition tumble : @Sample R := level 9.81 0 2.5 0.
Definition untumble : @Sample R := level 9.81 0 (-2.5) 0.
(** A burst of 0.5 rad/s about the z axis. *)
Definition spike : @Sample R := level 9.81 0 0 0.5.
(** Lying on the side: gravity along the x axis, no rotation. *)
Definition on_side : @Sample R :=
  {| acceleration := {| x := 1; y := 0; z := 0 |};
     gyro := {| x := 0; y := 0; z := 0 |} |}%R.

(** Gentle swaying, below and above the motion threshold. *)
Definition sway_back : @Sample R := level 9.81 0 (-0.2) 0.
Definition sway_forth : @Sample R := level 9.81 0 0.14 0.

(** The globals between two passes of a run that only saw [level]
    samples without rotation about the x axis: the roll and the baseline
    are zero, and the previous pass sampled at [ms] milliseconds. *)
Definition snapshot (st : FallState) (ms t_impact t_still : Z) (p : R)
  : @Globals R :=
  {| state := st; lastSampleMicros := 1000 * ms;
     impactTime := t_impact; stillStartTime := t_still;
     pitch := p; roll := 0%R; pitchBefore := 0%R; rollBefore := 0%R;
     lastTime := Some (1000 * ms) |}.

(** The pitch a pass stores for a [level] sample with pitch rate [gy],
    [ms] milliseconds after the previous pass. *)
Definition next_pitch (p gy : R) (ms : Z) : R :=
  (0.98 * (p + gy * (IZR ms / 1000) * 57.2958))%R.

(** Impact at 10 s; the device tips over within 0.4 s and lies still
    from 10.5 s on. *)
Definition fall_prefix : list (Clock * @Sample R) :=
  [ (at_ms 10000, jolt); (at_ms 10400, tumble); (at_ms 10500, resting) ].

(** The fall above, undisturbed, with passes 2 s and 2.005 s after the
    impact and a last pass at [last] milliseconds. *)
Definition undisturbed (last : Z) : list (Clock * @Sample R) :=
  (fall_prefix ++
   [ (at_ms 12000, resting); (at_ms 12005, resting);
     (at_ms last, resting) ])%list.

(** The same fall with a burst of motion 2 s after the impact. *)
Definition disturbed (last : Z) : list (Clock * @Sample R) :=
  (fall_prefix ++
   [ (at_ms 12000, spike); (at_ms 12005, resting);
     (at_ms last, resting) ])%list.

(** Impact at 1 s. *)
Definition impact_at_1s : Clock * @Sample R := (at_ms 1000, jolt).

(** After the impact at 1 s: stillness starts 3.001 s later, so that the
    confirmation and the timeout first hold on the same tick. *)
Definition late_stillness : list (Clock * @Sample R) :=
  [ (at_ms 1400, tumble); (at_ms 4001, resting); (at_ms 6997, resting) ].

Definition race_tick : Clock * @Sample R := (at_ms 7002, resting).

(** After the impact at 1 s: stillness from 4.001 s, and the device is
    back upright when the impact window closes. *)
Definition recovered : list (Clock * @Sample R) :=
  [ (at_ms 1400, tumble); (at_ms 4001, resting); (at_ms 6600, resting) ].

Definition upright_tick : Clock * @Sample R := (at_ms 7001, untumble).

(** After the impact at 1 s: stillness from 1.5 s. *)
Definition early_stillness : list (Clock * @Sample R) :=
  [ (at_ms 1400, tumble); (at_ms 1500, resting) ].

(** The globals once the impact at 1 s has been registered. *)
Definition armed_at_1s : @Globals R :=
  fst (loop (fst impact_at_1s) (snd impact_at_1s) initial).

(** An environment in which nothing happens. *)
Definition calm (n : nat) : Clock * @Sample R :=
  (at_ms (5 * Z.of_nat n), resting).


(* ================================================================== *)
(** ** Vocabulary for further properties of the fall detector *)

Definition IMPACT_LINE : string := "IMPACT detected".

Definition is_impact (o : Output) : bool :=
  match o with Println l => String.eqb l IMPACT_LINE end.

(** Number of impact lines in an output. *)
Definition impact_count (out : list Output) : nat :=
  List.length (List.filter is_impact out).

Section Chronology.

Context {F : Type} {ops : FloatOps F}.

(** The [millis()] readings of one pass respect the order of the calls:
    line 111 before line 113 before line 122 (line 97 is alone in its
    branch). *)
Definition ordered (c : Clock) : Prop :=
  millis_still c <= millis_confirm c
  /\ millis_confirm c <= millis_timeout c
  /\ millis_impact c <= millis_timeout c.

(** A run on a clock that never goes back and has not wrapped around:
    every reading of a pass is at least [t] and below 2^32, and the next
    pass starts after the last reading of this one. *)
Fixpoint chronological (t : Z) (ins : list (Clock * @Sample F)) : Prop :=
  match ins with
  | [] => True
  | (c, s) :: rest =>
      t <= millis_impact c /\ t <= millis_still c /\ ordered c
      /\ millis_timeout c < ULONG_MODULUS
      /\ chronological (millis_timeout c) rest
  end.

(** What the stored timestamps satisfy at time [t] on such a clock: in
    NORMAL the stillness timer is cleared; in IMPACT_DETECTED the impact
    lies in the past and the stillness timer is cleared or was started
    after the impact. *)
Definition timer_sane (t : Z) (g : @Globals F) : Prop :=
  match state g with
  | NORMAL => stillStartTime g = 0
  | IMPACT_DETECTED =>
      0 <= impactTime g <= t
      /\ (stillStartTime g = 0
          \/ impactTime g <= stillStartTime g <= t)
  | POST_FALL => True
  end.

(** The inputs of the passes [k], [k+1], ..., [k+n-1] of [loop()] in an
    environment. *)
Definition passes (env : nat -> Clock * @Sample F) (k n : nat)
  : list (Clock * @Sample F) :=
  List.map env (List.seq k n).

End Chronology.


(* ================================================================== *)
(** ** The obstacle sketches: ultrasonic distance to vibration motors

    [arduino/sketch_jan17a/sketch_jan17a.ino] and its extension with
    serial commands and vibration patterns.  Three HC-SR04 sensors are
    polled in turn; the distance of the nearest obstacle selects one of
    four vibration levels for the motor that belongs to the sensor.

    [int] is the 16-bit type of the boards these pin numbers belong to,
    [long] the 32-bit one; what the sketch does to its pins and to the
    serial port is recorded as a list of actions.  An Arduino [String]
    is a list of characters; [String::toInt] belongs to the Arduino core
    and is a parameter of the model. *)

(** The conversion from floating point to [long] that [return] performs
    in [getDistanceCM]. *)
Class FloatToLong (F : Type) : Type := { to_long : F -> Z }.

(** In ideal arithmetic: truncation towards zero. *)
Definition Rtrunc (r : R) : Z :=
  if Rle_dec 0 r then Int_part r else (- Int_part (- r))%Z.

#[export] Instance RealToLong : FloatToLong R := {| to_long := Rtrunc |}.

(** What the sketch does to the outside world. *)
Inductive Action : Type :=
| PinMode (pin : Z) (output : bool)
| DigitalWrite (pin : Z) (high : bool)
| AnalogWrite (pin : Z) (value : Z)
| Delay (ms : Z)
| DelayMicroseconds (us : Z)
| SerialBegin (baud : Z)
| Print (text : string)
| PrintNumber (n : Z)
| PrintLine (text : string).

(** The values written with [analogWrite], with their pins. *)
Fixpoint analog_writes (acts : list Action) : list (Z * Z) :=
  match acts with
  | [] => []
  | AnalogWrite pin v :: rest => (pin, v) :: analog_writes rest
  | _ :: rest => analog_writes rest
  end.

(** The time spent in [delay], in milliseconds. *)
Fixpoint delayed (acts : list Action) : Z :=
  match acts with
  | [] => 0
  | Delay ms :: rest => (ms + delayed rest)%Z
  | _ :: rest => delayed rest
  end.

(** Conversion to [int]. *)
Definition to_int (v : Z) : Z := (v + 2 ^ 15) mod 2 ^ 16 - 2 ^ 15.

(** Arduino's [constrain(amt, low, high)]. *)
Definition constrain (amt low high : Z) : Z :=
  (if amt <? low then low else if high <? amt then high else amt)%Z.

(** [String::charAt] and [String::substring(left, right)]. *)
Definition charAt (line : list ascii) (i : nat) : ascii :=
  List.nth i line Ascii.zero.

Definition substring (left right : nat) (line : list ascii) : list ascii :=
  let l := Nat.min left right in
  let r := Nat.max left right in
  List.firstn (r - l) (List.skipn l line).

Definition is_comma (ch : ascii) : bool := Ascii.eqb ch ","%char.

(** The C library's [atol], which [String::toInt] calls: leading white
    space, an optional sign, then decimal digits. *)
Definition is_space (ch : ascii) : bool :=
  let n := nat_of_ascii ch in
  (n =? 32)%nat || ((9 <=? n)%nat && (n <=? 13)%nat).

Definition digit_of (ch : ascii) : option Z :=
  let n := nat_of_ascii ch in
  if ((48 <=? n)%nat && (n <=? 57)%nat)%bool
  then Some (Z.of_nat (n - 48)) else None.

Fixpoint read_digits (acc : Z) (s : list ascii) : Z :=
  match s with
  | [] => acc
  | ch :: rest =>
      match digit_of ch with
      | Some d => read_digits (10 * acc + d) rest
      | None => acc
      end
  end.

Fixpoint atol (s : list ascii) : Z :=
  match s with
  | [] => 0
  | ch :: rest =>
      if is_space ch then atol rest
      else if Ascii.eqb ch "-"%char then - read_digits 0 rest
      else if Ascii.eqb ch "+"%char then read_digits 0 rest
      else read_digits 0 s
  end.

(** [(int) s.toInt()] for numbers that fit. *)
Definition toInt_atol (s : list ascii) : Z := to_int (atol s).

Module Haptics.

Definition NUM_SENSORS : nat := 3.
Definition trigPins : list Z := [13; 8; 4].
Definition echoPins : list Z := [12; 7; 2].
Definition motorPins : list Z := [11; 9; 3].
Definition levelThresholds : list Z := [33; 66; 100].
Definition vibrationPWM : list Z := [0; 130; 175; 255].

(** The globals the serial commands set. *)
Record Command : Type := {
  obj : list Z;            (* object flags, one per sensor *)
  vibrationEnabled : Z;
  vibrationPattern : Z
}.

Definition start : Command :=
  {| obj := [0; 0; 0]; vibrationEnabled := 1; vibrationPattern := 0 |}.

(** [getVibrationLevel]. *)
Definition getVibrationLevel (distance : Z) : Z :=
  (if (distance =? -1) || (100 <? distance) then 0
   else if 66 <? distance then 1
   else if 33 <? distance then 2
   else 3)%Z.

(** [vibrationPWM[level]]. *)
Definition pwm_of (level : Z) : Z :=
  List.nth (Z.to_nat level) vibrationPWM 0.

(** [applyVibrationPattern]. *)
Definition applyVibrationPattern (motorPin pwm pattern : Z) : list Action :=
  match pattern with
  | 0 => [AnalogWrite motorPin pwm]
  | 1 => [AnalogWrite motorPin pwm; Delay 80;
          AnalogWrite motorPin 0; Delay 200]
  | 2 => [AnalogWrite motorPin pwm; Delay 40;
          AnalogWrite motorPin 0; Delay 40]
  | 3 => [AnalogWrite motorPin pwm; Delay 50;
          AnalogWrite motorPin 0; Delay 50;
          AnalogWrite motorPin pwm; Delay 50;
          AnalogWrite motorPin 0; Delay 200]
  | _ => []
  end.

(** [setup()], the same in both sketches: the serial port, then the pins
    of each sensor and its motor, which is switched off. *)
Definition setup_sensor (i : nat) : list Action :=
  [PinMode (List.nth i trigPins 0) true;
   PinMode (List.nth i echoPins 0) false;
   DigitalWrite (List.nth i trigPins 0) false;
   AnalogWrite (List.nth i motorPins 0) 0].

Definition setup : list Action :=
  SerialBegin 115200 :: List.flat_map setup_sensor (List.seq 0 NUM_SENSORS).

Section Sketch.

Context {F : Type} {ops : FloatOps F} {conv : FloatToLong F}.
Variable toInt : list ascii -> Z.

(** [getDistanceCM]: the trigger pulse, and the distance for the echo
    time [duration] that [pulseIn] returns (0 on timeout). *)
Definition trigger_pulse (trigPin : Z) : list Action :=
  [DigitalWrite trigPin false; DelayMicroseconds 2;
   DigitalWrite trigPin true; DelayMicroseconds 10;
   DigitalWrite trigPin false].

Definition getDistanceCM (trigPin echoPin : Z) (duration : Z)
  : Z * list Action :=
  (if (duration =? 0)%Z then -1
   else to_long (fdiv (fmul (of_Z duration) (flit (34 # 1000))) (of_Z 2)),
   trigger_pulse trigPin).

(** The [for] loop of [parseSerialCommand]: [values] holds the
    [index] numbers read so far; [fuel] bounds the iterations left. *)
Fixpoint scan (line : list ascii) (fuel i lastPos : nat) (values : list Z)
  : list Z :=
  match fuel with
  | O => values
  | S fuel' =>
      if ((i <? List.length line)%nat
          && (List.length values <? 5)%nat)%bool
      then
        if (is_comma (charAt line i)
            || (i =? List.length line - 1)%nat)%bool
        then scan line fuel' (S i) (S i)
               (values ++ [toInt (substring lastPos (S i) line)])
        else scan line fuel' (S i) lastPos values
      else values
  end.

(** [parseSerialCommand]. *)
Definition parseSerialCommand (line : list ascii) (g : Command) : Command :=
  let values := scan line (List.length line) 0 0 [] in
  if (List.length values =? 5)%nat then
    {| obj := List.firstn NUM_SENSORS values;
       vibrationEnabled := List.nth 3 values 0;
       vibrationPattern := constrain (List.nth 4 values 0) 0 3 |}
  else g.

(** One round of the [for] loop of [loop()], for sensor [i] with echo
    time [duration]: the distance, the level and what is done. *)
Definition poll (g : Command) (i : nat) (duration : Z)
  : Z * Z * list Action :=
  let d := getDistanceCM (List.nth i trigPins 0) (List.nth i echoPins 0)
             duration in
  let level := getVibrationLevel (fst d) in
  let motor := List.nth i motorPins 0 in
  (to_int (fst d), level,
   snd d
   ++ (if (negb (vibrationEnabled g =? 0)%Z
           && negb (List.nth i (obj g) 0 =? 0)%Z
           && (0 <? level)%Z)%bool
       then applyVibrationPattern motor (pwm_of level) (vibrationPattern g)
       else [AnalogWrite motor 0])
   ++ [Delay 60])%list.

(** What one pass of [loop()] finds: a line on the serial port, if one
    is waiting, and the echo time of each sensor. *)
Record Pass : Type := {
  incoming : option (list ascii);
  echo : nat -> Z
}.

(** [loop()]. *)
Definition loop (p : Pass) (g : Command) : Command * list Action :=
  let g1 := match incoming p with
            | Some line => parseSerialCommand line g
            | None => g
            end in
  let r0 := poll g1 0 (echo p 0) in
  let r1 := poll g1 1 (echo p 1) in
  let r2 := poll g1 2 (echo p 2) in
  (g1,
   snd r0 ++ snd r1 ++ snd r2
   ++ [PrintLine "--------------------";
       PrintNumber (fst (fst r0)); Print ",";
       PrintNumber (fst (fst r1)); Print ",";
       PrintNumber (fst (fst r2)); Print ",";
       PrintNumber (snd (fst r0)); Print ",";
       PrintNumber (snd (fst r1)); Print ",";
       PrintNumber (snd (fst r2)); Print ",";
       PrintLine ""; Delay 1000])%list.

(** Successive passes of [loop()]. *)
Fixpoint run (ps : list Pass) (g : Command) : Command * list Action :=
  match ps with
  | [] => (g, [])
  | p :: rest =>
      let r1 := loop p g in
      let r2 := run rest (fst r1) in
      (fst r2, (snd r1 ++ snd r2)%list)
  end.

(** The sketch from power-up: [setup()], then passes of [loop()]. *)
Definition power_up (ps : list Pass) : Command * list Action :=
  let r := run ps start in (fst r, (setup ++ snd r)%list).

End Sketch.

End Haptics.

(** The number of commas in a line. *)
Definition commas (line : list ascii) : nat :=
  List.length (List.filter is_comma line).

(** Five fields, separated by commas. *)
Definition five_fields (f0 f1 f2 f3 f4 : list ascii) : list ascii :=
  (f0 ++ [","%char] ++ f1 ++ [","%char] ++ f2 ++ [","%char]
   ++ f3 ++ [","%char] ++ f4)%list.

Definition comma_free (f : list ascii) : Prop :=
  Forall (fun ch => is_comma ch = false) f.


(** The first version of the sketch, [sketch_jan17a.ino]: no serial
    commands, the motor follows the level directly. *)
Module Jan17a.

Section Sketch.

Context {F : Type} {ops : FloatOps F} {conv : FloatToLong F}.

(** One round of the [for] loop of [loop()], lines 41-57. *)
Definition poll (i : nat) (duration : Z) : list Action :=
  let d := Haptics.getDistanceCM (List.nth i Haptics.trigPins 0%Z)
             (List.nth i Haptics.echoPins 0%Z) duration in
  let level := Haptics.getVibrationLevel (fst d) in
  (snd d
   ++ [Print "Sensor "; PrintNumber (Z.of_nat i); Print ": Distance=";
       PrintNumber (fst d); Print " cm | Level=";
       PrintNumber level; PrintLine "";
       AnalogWrite (List.nth i Haptics.motorPins 0%Z) (Haptics.pwm_of level);
       Delay 60])%list.

(** [loop()], lines 31-95. *)
Definition loop (echo : nat -> Z) : list Action :=
  (poll 0 (echo 0%nat) ++ poll 1 (echo 1%nat) ++ poll 2 (echo 2%nat)
   ++ [PrintLine "--------------------"; Delay 1000])%list.

End Sketch.

End Jan17a.

(** A command that flags every object, enables the motors and selects
    the continuous pattern. *)
Definition all_on : Haptics.Command :=
  {| Haptics.obj := [1; 1; 1]; Haptics.vibrationEnabled := 1;
     Haptics.vibrationPattern := 0 |}.

(** A write that goes to one of the three motors, with a duty from the
    table. *)
Definition safe_write (w : Z * Z) : Prop :=
  In (fst w) Haptics.motorPins /\ In (snd w) Haptics.vibrationPWM.

(** Concrete cases for the further properties. *)


(** Nothing on the serial port, and every echo lasting one millisecond. *)
Definition echo_1ms : Haptics.Pass :=
  {| Haptics.incoming := None; Haptics.echo := fun _ => 1000%Z |}.

(** The characters of a string. *)
Definition chars (s : string) : list ascii := list_ascii_of_string s.

(* ================================================================== *)
(** * Properties *)

(** ** One pass of [loop()] *)

Section TickFacts.

Context {F : Type} {ops : FloatOps F}.
Local Open Scope float_scope.

Implicit Types (c : Clock) (s : @Sample F) (g : @Globals F).

Lemma loop_too_early c s g :
  too_early c g = true -> loop c s g = (g, []).
Proof. intros E. unfold loop. now rewrite E. Qed.

Lemma loop_tick c s g :
  too_early c g = false ->
  loop c s g = classify c (accelMag s) (gyroMag s) (sampled c s g).
Proof. intros E. unfold loop. now rewrite E. Qed.

(** Sampling and filtering leave the classifier's own variables alone. *)
Lemma sampled_frame c s g :
  state (sampled c s g) = state g
  /\ impactTime (sampled c s g) = impactTime g
  /\ stillStartTime (sampled c s g) = stillStartTime g
  /\ pitchBefore (sampled c s g) = pitchBefore g
  /\ rollBefore (sampled c s g) = rollBefore g.
Proof. repeat split. Qed.

(** The orientation a tick stores is the output of the filter. *)
Lemma sampled_orientation c s g :
  (pitch (sampled c s g), roll (sampled c s g))
  = filter (elapsed c g) s (pitch g) (roll g).
Proof. reflexivity. Qed.

Lemma timed_out_sampled c s g :
  timed_out c (sampled c s g) = timed_out c g.
Proof. reflexivity. Qed.

Lemma fall_count_app (o1 o2 : list Output) :
  fall_count (o1 ++ o2) = (fall_count o1 + fall_count o2)%nat.
Proof.
  unfold fall_count. now rewrite List.filter_app, List.length_app.
Qed.

Lemma fall_count_triggerFall : fall_count triggerFall = 1%nat.
Proof. reflexivity. Qed.

(** The stillness block never touches the impact time or the baseline,
    and it is the only place where a fall is reported. *)
Lemma stillness_block_frame c gm g :
  let r := stillness_block c gm g in
  impactTime (fst r) = impactTime g
  /\ pitchBefore (fst r) = pitchBefore g
  /\ rollBefore (fst r) = rollBefore g
  /\ pitch (fst r) = pitch g
  /\ roll (fst r) = roll g.
Proof.
  unfold stillness_block, start_still_timer.
  destruct (angle_exceeded g), (gm <? MOTION_THRESHOLD),
    (inactivity_elapsed c g), (stillStartTime g =? 0)%Z; cbn; repeat split.
Qed.

Lemma timed_out_after_stillness c gm g :
  timed_out c (fst (stillness_block c gm g)) = timed_out c g.
Proof.
  unfold timed_out.
  now destruct (stillness_block_frame c gm g) as [-> _].
Qed.

(** What the armed case computes, by the outcome of its four tests. *)
Lemma classify_armed c am gm g :
  state g = IMPACT_DETECTED ->
  classify c am gm g =
    (timeout_block c (fst (stillness_block c gm g)),
     snd (stillness_block c gm g)).
Proof. intros St. unfold classify. now rewrite St. Qed.

Lemma stillness_block_output c gm g :
  snd (stillness_block c gm g) =
    if angle_exceeded g && (gm <? MOTION_THRESHOLD)
       && inactivity_elapsed c g
    then triggerFall else [].
Proof.
  unfold stillness_block.
  now destruct (angle_exceeded g), (gm <? MOTION_THRESHOLD),
    (inactivity_elapsed c g).
Qed.

Lemma stillness_block_state c gm g :
  state (fst (stillness_block c gm g)) =
    if angle_exceeded g && (gm <? MOTION_THRESHOLD)
       && inactivity_elapsed c g
    then POST_FALL else state g.
Proof.
  unfold stillness_block, start_still_timer.
  now destruct (angle_exceeded g), (gm <? MOTION_THRESHOLD),
    (inactivity_elapsed c g), (stillStartTime g =? 0)%Z.
Qed.

Lemma timeout_block_state c g :
  state (timeout_block c g) = if timed_out c g then NORMAL else state g.
Proof. unfold timeout_block. now destruct (timed_out c g). Qed.

Lemma timeout_block_still c g :
  stillStartTime (timeout_block c g) =
    if timed_out c g then 0%Z else stillStartTime g.
Proof. unfold timeout_block. now destruct (timed_out c g). Qed.

(** An armed tick: where it ends and what it prints. *)
Lemma armed_tick c s g :
  state g = IMPACT_DETECTED ->
  too_early c g = false ->
  state (fst (loop c s g)) =
    (if timed_out c g then NORMAL
     else if confirms c s g then POST_FALL else IMPACT_DETECTED)
  /\ snd (loop c s g) = (if confirms c s g then triggerFall else []).
Proof.
  intros St E. rewrite (loop_tick _ _ _ E).
  rewrite classify_armed by exact St. cbn [fst snd].
  rewrite timeout_block_state, timed_out_after_stillness,
    stillness_block_state, stillness_block_output.
  change (timed_out c (sampled c s g)) with (timed_out c g).
  change (state (sampled c s g)) with (state g). rewrite St.
  unfold confirms, still. split; reflexivity.
Qed.

Lemma normal_tick c s g :
  state g = NORMAL ->
  too_early c g = false ->
  loop c s g =
    if accelMag s >? IMPACT_THRESHOLD_G then
      (set_state IMPACT_DETECTED
         (set_baseline (pitch (sampled c s g)) (roll (sampled c s g))
            (set_impactTime (millis_impact c) (sampled c s g))),
       [Println "IMPACT detected"])
    else (sampled c s g, []).
Proof.
  intros St E. rewrite (loop_tick _ _ _ E). unfold classify.
  change (state (sampled c s g)) with (state g). now rewrite St.
Qed.

Lemma post_fall_tick c s g :
  state g = POST_FALL ->
  too_early c g = false ->
  loop c s g =
    if gyroMag s >? MOTION_THRESHOLD * of_Z 2 then
      (set_stillStartTime 0 (set_state NORMAL (sampled c s g)), [])
    else (sampled c s g, []).
Proof.
  intros St E. rewrite (loop_tick _ _ _ E). unfold classify.
  change (state (sampled c s g)) with (state g). now rewrite St.
Qed.

End TickFacts.

(** ** Runs *)

Section RunFacts.

Context {F : Type} {ops : FloatOps F}.
Local Open Scope float_scope.

Implicit Types (c : Clock) (s : @Sample F) (g : @Globals F).
Implicit Types (ins : list (Clock * @Sample F)).

Lemma run_app ins1 ins2 g :
  run (ins1 ++ ins2) g =
    (fst (run ins2 (fst (run ins1 g))),
     (snd (run ins1 g) ++ snd (run ins2 (fst (run ins1 g))))%list).
Proof.
  revert g. induction ins1 as [|[c s] rest IH]; intros g.
  - cbn. now destruct (run ins2 g).
  - cbn [run app fst snd]. rewrite IH. cbn [fst snd].
    now rewrite List.app_assoc.
Qed.

Lemma run_one c s g : run [(c, s)] g = loop c s g.
Proof.
  cbn. rewrite List.app_nil_r. now destruct (loop c s g).
Qed.

Lemma run_snoc ins c s g :
  run (ins ++ [(c, s)]) g =
    (fst (loop c s (fst (run ins g))),
     (snd (run ins g) ++ snd (loop c s (fst (run ins g))))%list).
Proof. now rewrite run_app, run_one. Qed.

Lemma impacts_app ins1 ins2 g :
  impacts (ins1 ++ ins2) g =
    (impacts ins1 g + impacts ins2 (fst (run ins1 g)))%nat.
Proof.
  revert g. induction ins1 as [|[c s] rest IH]; intros g; [reflexivity|].
  cbn [app impacts run fst]. rewrite IH. lia.
Qed.

(** A pass reports at most one fall, and only by closing an episode;
    an episode is opened only by a pass that starts in NORMAL. *)
Lemma pass_budget c s g :
  (fall_count (snd (loop c s g)) + open_episode (fst (loop c s g))
   <= open_episode g + impacts [(c, s)] g)%nat.
Proof.
  cbn [impacts]. destruct (too_early c g) eqn:E.
  - rewrite (loop_too_early _ _ _ E). cbn [fst snd].
    unfold open_episode. destruct (state g); cbn; lia.
  - destruct (state g) eqn:St.
    + rewrite (normal_tick _ _ _ St E).
      unfold open_episode. rewrite St.
      destruct (accelMag s >? IMPACT_THRESHOLD_G); cbn [fst snd].
      * cbn. lia.
      * change (state (sampled c s g)) with (state g). rewrite St. cbn. lia.
    + unfold open_episode.
      destruct (armed_tick c s g St E) as [-> ->]. rewrite St.
      destruct (timed_out c g), (confirms c s g); cbn; lia.
    + rewrite (post_fall_tick _ _ _ St E).
      unfold open_episode. rewrite St.
      destruct (gyroMag s >? MOTION_THRESHOLD * of_Z 2); cbn [fst snd].
      * cbn. lia.
      * change (state (sampled c s g)) with (state g). rewrite St. cbn. lia.
Qed.

(** A pass reports at most one fall, and a pass that reports one starts
    in IMPACT_DETECTED and ends outside it. *)
Lemma fall_closes_episode c s g :
  (fall_count (snd (loop c s g)) <= 1)%nat
  /\ (fall_count (snd (loop c s g)) = 1%nat ->
      state g = IMPACT_DETECTED
      /\ state (fst (loop c s g)) <> IMPACT_DETECTED).
Proof.
  pose proof (pass_budget c s g) as P. cbn [impacts] in P.
  unfold open_episode in P.
  destruct (state g) eqn:St, (state (fst (loop c s g))) eqn:S1;
    cbn in P; split; try lia; intros H; try lia;
    split; (reflexivity || discriminate).
Qed.

Lemma run_budget ins g :
  (fall_count (snd (run ins g)) + open_episode (fst (run ins g))
   <= open_episode g + impacts ins g)%nat.
Proof.
  revert g. induction ins as [|[c s] rest IH]; intros g.
  - cbn. lia.
  - cbn [run fst snd]. rewrite fall_count_app.
    specialize (IH (fst (loop c s g))).
    pose proof (pass_budget c s g) as P. cbn [impacts] in P |- *. lia.
Qed.

(** While every pass ends armed, no episode is opened and nothing is
    reported. *)
Lemma stays_armed_silent ins g :
  state g = IMPACT_DETECTED ->
  stays_armed ins g ->
  state (fst (run ins g)) = IMPACT_DETECTED
  /\ impacts ins g = 0%nat
  /\ fall_count (snd (run ins g)) = 0%nat.
Proof.
  revert g. induction ins as [|[c s] rest IH]; intros g St H.
  - cbn. auto.
  - cbn [stays_armed] in H. destruct H as [St1 H].
    destruct (IH _ St1 H) as (Sf & Im & Fc).
    pose proof (pass_budget c s g) as P.
    unfold open_episode in P. cbn [impacts] in P. rewrite St, St1 in P.
    cbn [run impacts fst snd]. rewrite fall_count_app, St, Im, Fc.
    split; [exact Sf|]. split; [reflexivity|]. cbn in P. lia.
Qed.

(** The impact time is fixed for the whole of an episode. *)
Lemma armed_pass_impactTime c s g :
  state g = IMPACT_DETECTED ->
  impactTime (fst (loop c s g)) = impactTime g.
Proof.
  intros St. destruct (too_early c g) eqn:E.
  - now rewrite (loop_too_early _ _ _ E).
  - rewrite (loop_tick _ _ _ E), classify_armed by exact St. cbn [fst].
    unfold timeout_block.
    destruct (timed_out c _); cbn;
      now destruct (stillness_block_frame c (gyroMag s) (sampled c s g))
        as [-> _].
Qed.

(** A pass on which neither test fires changes neither the state nor
    what has been printed. *)
Lemma pending_pass c s g :
  state g = IMPACT_DETECTED ->
  too_early c g = true
    \/ (confirms c s g = false /\ timed_out c g = false) ->
  state (fst (loop c s g)) = IMPACT_DETECTED /\ snd (loop c s g) = [].
Proof.
  intros St [E|[Cf To]].
  - rewrite (loop_too_early _ _ _ E). auto.
  - destruct (too_early c g) eqn:E.
    + rewrite (loop_too_early _ _ _ E). auto.
    + destruct (armed_tick c s g St E) as [-> ->]. now rewrite To, Cf.
Qed.

Lemma pending_run ins g :
  state g = IMPACT_DETECTED ->
  pending ins g ->
  state (fst (run ins g)) = IMPACT_DETECTED
  /\ impactTime (fst (run ins g)) = impactTime g
  /\ snd (run ins g) = [].
Proof.
  revert g. induction ins as [|[c s] rest IH]; intros g St H.
  - cbn. auto.
  - cbn [pending] in H. destruct H as [H1 H].
    destruct (pending_pass c s g St H1) as [St1 O1].
    destruct (IH _ St1 H) as (Sf & It & Of).
    cbn [run fst snd]. rewrite O1, Of, It.
    repeat split; auto using armed_pass_impactTime.
Qed.

(** A tick on which the timeout fires and the confirmation does not. *)
Lemma expiry_tick c s g :
  state g = IMPACT_DETECTED ->
  too_early c g = false ->
  timed_out c g = true ->
  confirms c s g = false ->
  state (fst (loop c s g)) = NORMAL
  /\ stillStartTime (fst (loop c s g)) = 0%Z
  /\ snd (loop c s g) = [].
Proof.
  intros St E To Cf.
  destruct (armed_tick c s g St E) as [S1 O1]. rewrite To in S1.
  rewrite Cf in O1. repeat split; auto.
  rewrite (loop_tick _ _ _ E), classify_armed by exact St. cbn [fst].
  rewrite timeout_block_still, timed_out_after_stillness.
  change (timed_out c (sampled c s g)) with (timed_out c g).
  now rewrite To.
Qed.

(** In POST_FALL a pass that does not see motion changes nothing the
    classifier owns. *)
Lemma quiet_pass c s g :
  state g = POST_FALL ->
  (gyroMag s >? MOTION_THRESHOLD * of_Z 2) = false ->
  state (fst (loop c s g)) = POST_FALL /\ snd (loop c s g) = [].
Proof.
  intros St Q. destruct (too_early c g) eqn:E.
  - rewrite (loop_too_early _ _ _ E). auto.
  - rewrite (post_fall_tick _ _ _ St E), Q. auto.
Qed.

Lemma quiet_run ins g :
  state g = POST_FALL ->
  all_quiet ins ->
  state (fst (run ins g)) = POST_FALL /\ snd (run ins g) = [].
Proof.
  revert g. induction ins as [|[c s] rest IH]; intros g St H.
  - cbn. auto.
  - inversion H as [|? ? Q H']; subst. cbn [snd] in Q.
    destruct (quiet_pass c s g St Q) as [St1 O1].
    destruct (IH _ St1 H') as [Sf Of].
    cbn [run fst snd]. now rewrite O1, Of.
Qed.

End RunFacts.

(** ** The stillness timer *)

Section TimerFacts.

Context {F : Type} {ops : FloatOps F}.
Local Open Scope float_scope.

Implicit Types (c : Clock) (s : @Sample F) (g : @Globals F).

(** With the timer running, the inactivity test measures from the time
    the timer was started. *)
Lemma inactivity_running c s g :
  stillStartTime g <> 0%Z ->
  inactivity_elapsed c (sampled c s g) =
    (INACTIVITY_TIME_MS <? usub (millis_confirm c) (stillStartTime g))%Z.
Proof.
  intros H. unfold inactivity_elapsed, start_still_timer.
  change (stillStartTime (sampled c s g)) with (stillStartTime g).
  destruct (Z.eqb_spec (stillStartTime g) 0); [contradiction|reflexivity].
Qed.

(** With the timer cleared, it is started on line 111 and the test
    measures from there. *)
Lemma inactivity_cleared c s g :
  stillStartTime g = 0%Z ->
  inactivity_elapsed c (sampled c s g) =
    (INACTIVITY_TIME_MS <? usub (millis_confirm c) (millis_still c))%Z.
Proof.
  intros H. unfold inactivity_elapsed, start_still_timer.
  change (stillStartTime (sampled c s g)) with (stillStartTime g).
  now rewrite H.
Qed.

(** The timer after an armed tick. *)
Lemma armed_tick_timer c s g :
  state g = IMPACT_DETECTED ->
  too_early c g = false ->
  stillStartTime (fst (loop c s g)) =
    if timed_out c g then 0%Z
    else if angle_exceeded (sampled c s g) then
      if still s then stillStartTime (start_still_timer c (sampled c s g))
      else 0%Z
    else stillStartTime g.
Proof.
  intros St E. rewrite (loop_tick _ _ _ E), classify_armed by exact St.
  cbn [fst]. rewrite timeout_block_still, timed_out_after_stillness.
  change (timed_out c (sampled c s g)) with (timed_out c g).
  destruct (timed_out c g); [reflexivity|].
  unfold stillness_block, still.
  destruct (angle_exceeded (sampled c s g)); [|reflexivity].
  destruct (gyroMag s <? MOTION_THRESHOLD); [|reflexivity].
  now destruct (inactivity_elapsed c (sampled c s g)).
Qed.

(** The impact time and the baseline survive every armed tick. *)
Lemma armed_tick_frame c s g :
  state g = IMPACT_DETECTED ->
  too_early c g = false ->
  impactTime (fst (loop c s g)) = impactTime g
  /\ pitchBefore (fst (loop c s g)) = pitchBefore g
  /\ rollBefore (fst (loop c s g)) = rollBefore g.
Proof.
  intros St E. rewrite (loop_tick _ _ _ E), classify_armed by exact St.
  cbn [fst].
  destruct (stillness_block_frame c (gyroMag s) (sampled c s g))
    as (H1 & H2 & H3 & _).
  unfold timeout_block.
  destruct (timed_out c _); cbn; rewrite ?H1, ?H2, ?H3; repeat split.
Qed.

(** The [switch] never writes the orientation. *)
Lemma classify_orientation c am gm g :
  pitch (fst (classify c am gm g)) = pitch g
  /\ roll (fst (classify c am gm g)) = roll g.
Proof.
  unfold classify. destruct (state g).
  - destruct (am >? IMPACT_THRESHOLD_G); split; reflexivity.
  - cbn [fst].
    destruct (stillness_block_frame c gm g) as (_ & _ & _ & H4 & H5).
    unfold timeout_block.
    destruct (timed_out c _); cbn; rewrite ?H4, ?H5; split; reflexivity.
  - destruct (gm >? MOTION_THRESHOLD * of_Z 2); split; reflexivity.
Qed.

Lemma tick_orientation c s g :
  too_early c g = false ->
  (pitch (fst (loop c s g)), roll (fst (loop c s g)))
  = filter (elapsed c g) s (pitch g) (roll g).
Proof.
  intros E. rewrite (loop_tick _ _ _ E).
  destruct (classify_orientation c (accelMag s) (gyroMag s) (sampled c s g))
    as [-> ->].
  apply sampled_orientation.
Qed.

End TimerFacts.

(** ** The board *)

Section BoardFacts.

Context {F : Type} {ops : FloatOps F}.

(** Once [mpu.begin()] has failed the board sits in [while (1);]. *)
Lemma failed_begin_spins (env : nat -> Clock * @Sample F) (n : nat) :
  board_after false env (S n) =
    {| phase := InSetup Spinning; globals := initial;
       serial := [Println "MPU6050 not found!"] |}.
Proof.
  induction n as [|n IH].
  - reflexivity.
  - change (board_after false env (S (S n)))
      with (board_step false (fst (env (S n))) (snd (env (S n)))
              (board_after false env (S n))).
    now rewrite IH.
Qed.

(** With a sensor that answers, two steps lead into the control loop. *)
Lemma good_begin_enters_loop (env : nat -> Clock * @Sample F) :
  board_after true env 2 =
    {| phase := InLoop; globals := initial;
       serial := [Println "Fall detection ready"] |}.
Proof. reflexivity. Qed.

End BoardFacts.

(** ** Ideal arithmetic *)

(** Reading and writing the fields of explicit globals and clocks. *)
Ltac fields :=
  cbn [state lastSampleMicros impactTime stillStartTime pitch roll
       pitchBefore rollBefore lastTime
       set_state set_lastSampleMicros set_impactTime set_stillStartTime
       set_orientation set_baseline set_lastTime
       micros_gate micros_stamp micros_init micros_dt micros_last
       millis_impact millis_still millis_confirm millis_timeout
       fst snd].

Section RealFacts.

Local Open Scope R_scope.

Lemma fgtb_true (a b : R) : a > b -> fgtb a b = true.
Proof. intros H. cbn. unfold Rgtb. now destruct (Rgt_dec a b). Qed.

Lemma fgtb_false (a b : R) : a <= b -> fgtb a b = false.
Proof.
  intros H. cbn. unfold Rgtb. destruct (Rgt_dec a b); [lra|reflexivity].
Qed.

Lemma fltb_true (a b : R) : a < b -> fltb a b = true.
Proof. intros H. cbn. unfold Rltb. now destruct (Rlt_dec a b). Qed.

Lemma fltb_false (a b : R) : b <= a -> fltb a b = false.
Proof.
  intros H. cbn. unfold Rltb. destruct (Rlt_dec a b); [lra|reflexivity].
Qed.

(** In ideal arithmetic "not above" is "at or below", and "not below" is
    "at or above". *)
Lemma fgtb_false_iff (a b : R) : fgtb a b = false <-> a <= b.
Proof.
  split; [|apply fgtb_false]. cbn. unfold Rgtb.
  destruct (Rgt_dec a b); [discriminate|lra].
Qed.

Lemma fltb_false_iff (a b : R) : fltb a b = false <-> b <= a.
Proof.
  split; [|apply fltb_false]. cbn. unfold Rltb.
  destruct (Rlt_dec a b); [discriminate|lra].
Qed.

(** The literals of the sketch. *)
Lemma lit_impact : @IMPACT_THRESHOLD_G R _ = 2.8.
Proof. unfold IMPACT_THRESHOLD_G. cbn. unfold Q2R. cbn. lra. Qed.

Lemma lit_angle : @ANGLE_THRESHOLD_DEG R _ = 45.
Proof. unfold ANGLE_THRESHOLD_DEG. cbn. unfold Q2R. cbn. lra. Qed.

Lemma lit_motion : @MOTION_THRESHOLD R _ = 0.15.
Proof. unfold MOTION_THRESHOLD. cbn. unfold Q2R. cbn. lra. Qed.

Lemma lit_rad_to_deg : @RAD_TO_DEG R _ = 57.2958.
Proof. unfold RAD_TO_DEG. cbn. unfold Q2R. cbn. lra. Qed.

(** PI to six digits, from the Machin-like series of the library. *)
Lemma PI_above : 3.1415916 < PI.
Proof.
  pose proof (PI_2_3_7_ineq 2) as [H _].
  unfold sum_f_R0, tg_alt, PI_2_3_7_tg, Ratan_seq in H.
  simpl in H. lra.
Qed.

(** The literal of the sketch is a little more than 180/PI. *)
Lemma rad_to_deg_above : 180 / PI < 57.2958.
Proof.
  pose proof PI_above as H.
  apply Rmult_lt_reg_r with PI; [lra|].
  unfold Rdiv. rewrite Rmult_assoc, Rinv_l by lra. lra.
Qed.

Lemma Ratan2_0_pos (a : R) : 0 < a -> Ratan2 0 a = 0.
Proof.
  intros H. unfold Ratan2. destruct (Rlt_dec 0 a); [|lra].
  replace (0 / a) with 0 by (field; lra). apply atan_0.
Qed.

Lemma Ratan2_pos_0 (a : R) : 0 < a -> Ratan2 a 0 = PI / 2.
Proof.
  intros H. unfold Ratan2.
  destruct (Rlt_dec 0 0); [lra|]. destruct (Rlt_dec 0 a); [reflexivity|lra].
Qed.

Lemma sqrt_sq2 (a : R) : 0 <= a -> sqrt (0 * 0 + a * a) = a.
Proof.
  intros H. replace (0 * 0 + a * a) with (a * a) by ring.
  now apply sqrt_square.
Qed.

Lemma sqrt_sq3 (a : R) : 0 <= a -> sqrt (0 * 0 + 0 * 0 + a * a) = a.
Proof.
  intros H. replace (0 * 0 + 0 * 0 + a * a) with (a * a) by ring.
  now apply sqrt_square.
Qed.

(** *** [level] samples *)

Lemma accelMag_level az gx gy gz :
  0 <= az -> accelMag (level az gx gy gz) = az / 9.81.
Proof.
  intros H. unfold accelMag, level. cbn. rewrite sqrt_sq3 by exact H.
  unfold Q2R. cbn. lra.
Qed.

Lemma gyroMag_level az gy gz :
  gyroMag (level az 0 gy gz) = Rabs gy + Rabs gz.
Proof. unfold gyroMag, level. cbn. rewrite Rabs_R0. lra. Qed.

Lemma filter_level dt az gx gy gz p r :
  0 < az ->
  filter dt (level az gx gy gz) p r =
    (0.98 * (p + gy * dt * 57.2958), 0.98 * (r + gx * dt * 57.2958)).
Proof.
  intros H. unfold filter, pitchAcc, rollAcc, level. cbn.
  rewrite sqrt_sq2 by lra. rewrite Ratan2_0_pos by exact H.
  unfold Q2R. cbn. f_equal; lra.
Qed.

Lemma still_level az gy gz :
  still (level az 0 gy gz) = Rltb (Rabs gy + Rabs gz) 0.15.
Proof. unfold still. now rewrite gyroMag_level, lit_motion. Qed.

(** *** Timestamps that do not wrap *)

Lemma usub_small (a b : Z) :
  (0 <= b <= a)%Z -> (a < ULONG_MODULUS)%Z -> usub a b = (a - b)%Z.
Proof.
  intros H1 H2. unfold usub. apply Z.mod_small. lia.
Qed.

Lemma ulong_modulus_value : ULONG_MODULUS = 4294967296%Z.
Proof. reflexivity. Qed.

(** *** Passes over snapshots *)

Lemma gate_snapshot st ms ms' T S p :
  (0 <= ms)%Z -> (ms + 5 <= ms' < 4000000)%Z ->
  too_early (at_ms ms') (snapshot st ms T S p) = false.
Proof.
  intros H1 H2. unfold too_early, snapshot, at_ms. cbn [micros_gate lastSampleMicros].
  rewrite usub_small by (rewrite ?ulong_modulus_value; lia).
  change (1000000 / SAMPLE_RATE_HZ)%Z with 5000%Z.
  apply Z.ltb_ge. lia.
Qed.

Lemma sampled_snapshot st ms ms' T S p az gy gz :
  0 < az ->
  (0 <= ms <= ms')%Z -> (ms' < 4000000)%Z ->
  sampled (at_ms ms') (level az 0 gy gz) (snapshot st ms T S p) =
    snapshot st ms' T S (next_pitch p gy (ms' - ms)).
Proof.
  intros Haz H1 H2. unfold sampled, update_orientation.
  rewrite filter_level by exact Haz.
  unfold elapsed, snapshot, at_ms, set_orientation, set_lastTime,
    set_lastSampleMicros, next_pitch.
  cbn [state lastSampleMicros impactTime stillStartTime pitch roll
       pitchBefore rollBefore lastTime micros_stamp micros_dt micros_last
       fst snd].
  rewrite usub_small by (rewrite ?ulong_modulus_value; lia).
  rewrite <- Z.mul_sub_distr_l, mult_IZR.
  cbn [fdiv of_Z flit RealOps]. unfold Q2R. cbn [Qnum Qden].
  f_equal; field_simplify; try lra; field.
Qed.

Lemma angle_snapshot st ms T S p :
  angle_exceeded (snapshot st ms T S p) = Rgtb (Rabs p) 45.
Proof.
  unfold angle_exceeded, snapshot.
  cbn [pitch roll pitchBefore rollBefore]. rewrite lit_angle.
  rewrite (fgtb_false (fabs (fsub 0 0)) 45).
  - rewrite orb_false_r. cbn [fgtb fabs fsub RealOps].
    now rewrite Rminus_0_r.
  - cbn [fabs fsub RealOps]. rewrite Rminus_0_r, Rabs_R0. lra.
Qed.

(** An armed pass over a snapshot, by the outcome of its tests. *)
Lemma armed_pass ms ms' T S p az gy gz :
  0 < az ->
  (0 <= ms)%Z -> (ms + 5 <= ms' < 4000000)%Z ->
  (0 <= T <= ms')%Z -> (0 <= S <= ms')%Z ->
  let p' := next_pitch p gy (ms' - ms) in
  let tilted := Rgtb (Rabs p') 45 in
  let quiet := Rltb (Rabs gy + Rabs gz) 0.15 in
  let S1 := if tilted
            then if quiet then (if (S =? 0)%Z then ms' else S) else 0%Z
            else S in
  let conf := tilted && quiet && (3000 <? ms' - S1)%Z in
  let tout := (6000 <? ms' - T)%Z in
  loop (at_ms ms') (level az 0 gy gz) (snapshot IMPACT_DETECTED ms T S p) =
    (snapshot (if tout then NORMAL
               else if conf then POST_FALL else IMPACT_DETECTED)
       ms' T (if tout then 0%Z else S1) p',
     if conf then triggerFall else []).
Proof.
  intros Haz Hms Hms' HT HS p' tilted quiet S1 conf tout.
  rewrite loop_tick by (apply gate_snapshot; lia).
  rewrite sampled_snapshot by (try exact Haz; lia). fold p'.
  rewrite classify_armed by reflexivity.
  unfold stillness_block, timeout_block, timed_out, inactivity_elapsed,
    start_still_timer.
  rewrite angle_snapshot. fold tilted.
  rewrite gyroMag_level, lit_motion. cbn [fltb RealOps]. fold quiet.
  unfold IMPACT_TIMEOUT_MS, INACTIVITY_TIME_MS.
  assert (Hu : forall b, (0 <= b <= ms')%Z -> usub ms' b = (ms' - b)%Z).
  { intros b Hb. apply usub_small; rewrite ?ulong_modulus_value; lia. }
  subst conf S1.
  unfold snapshot, at_ms. fields.
  destruct tilted, quiet; cbn [andb]; fields;
    try (destruct (Z.eqb_spec S 0); fields);
    rewrite ?(Hu S), ?(Hu ms') by lia;
    repeat match goal with
           | |- context [(3000 <? ?a)%Z] => destruct (3000 <? a)%Z
           end;
    fields; rewrite ?(Hu T) by lia; fold tout;
    destruct tout; reflexivity.
Qed.

(** The first pass of all, registering an impact. *)
Lemma first_impact ms' :
  (5 <= ms' < 4000000)%Z ->
  loop (at_ms ms') jolt initial =
    (snapshot IMPACT_DETECTED ms' ms' 0 0, [Println "IMPACT detected"]).
Proof.
  intros H.
  assert (E : too_early (at_ms ms') (@initial R _) = false).
  { unfold too_early, initial, at_ms. cbn [micros_gate lastSampleMicros].
    rewrite usub_small by (rewrite ?ulong_modulus_value; lia).
    change (1000000 / SAMPLE_RATE_HZ)%Z with 5000%Z.
    apply Z.ltb_ge. lia. }
  rewrite (normal_tick (at_ms ms') jolt initial eq_refl E).
  unfold jolt. rewrite accelMag_level by lra.
  rewrite fgtb_true by (rewrite lit_impact; lra).
  f_equal. unfold sampled, update_orientation.
  rewrite filter_level by lra.
  unfold snapshot, initial, at_ms.
  cbn [state lastSampleMicros impactTime stillStartTime pitch roll
       pitchBefore rollBefore lastTime micros_stamp micros_dt micros_last
       micros_init millis_impact set_state set_baseline set_impactTime
       set_orientation set_lastTime set_lastSampleMicros fst snd].
  unfold set_state, set_baseline, set_impactTime, set_orientation,
    set_lastTime, set_lastSampleMicros.
  cbn [state lastSampleMicros impactTime stillStartTime pitch roll
       pitchBefore rollBefore lastTime micros_stamp micros_last
       millis_impact of_Z RealOps fst snd].
  f_equal; lra.
Qed.

Lemma next_pitch_rest p ms : next_pitch p 0 ms = 0.98 * p.
Proof. unfold next_pitch. lra. Qed.

Lemma tilted_true p : p > 45 -> Rgtb (Rabs p) 45 = true.
Proof.
  intros H. rewrite Rabs_pos_eq by lra. unfold Rgtb.
  destruct (Rgt_dec p 45); [reflexivity|lra].
Qed.

Lemma tilted_false p : -45 <= p <= 45 -> Rgtb (Rabs p) 45 = false.
Proof.
  intros H. unfold Rgtb. destruct (Rgt_dec (Rabs p) 45) as [G|]; [|reflexivity].
  unfold Rabs in G. destruct (Rcase_abs p); lra.
Qed.

Lemma quiet_true a b : 0 <= a -> 0 <= b -> a + b < 0.15 ->
  Rltb (Rabs a + Rabs b) 0.15 = true.
Proof.
  intros Ha Hb H. rewrite !Rabs_pos_eq by lra. unfold Rltb.
  destruct (Rlt_dec (a + b) 0.15); [reflexivity|lra].
Qed.

Lemma quiet_false a b : 0 <= a -> 0 <= b -> 0.15 <= a + b ->
  Rltb (Rabs a + Rabs b) 0.15 = false.
Proof.
  intros Ha Hb H. rewrite !Rabs_pos_eq by lra. unfold Rltb.
  destruct (Rlt_dec (a + b) 0.15); [lra|reflexivity].
Qed.

End RealFacts.

(** ** The concrete runs *)

(** Arithmetic on integer literals. *)
Ltac pnum p :=
  lazymatch p with
  | xH => idtac
  | xO ?q => pnum q
  | xI ?q => pnum q
  end.

Ltac znum a :=
  lazymatch a with
  | Z0 => idtac
  | Zpos ?p => pnum p
  | Zneg ?p => pnum p
  end.

Ltac zcalc :=
  repeat match goal with
  | |- context [(?a - ?b)%Z] =>
      znum a; znum b;
      let v := eval vm_compute in (a - b)%Z in change (a - b)%Z with v
  | |- context [(?a <? ?b)%Z] =>
      znum a; znum b;
      let v := eval vm_compute in (a <? b)%Z in change (a <? b)%Z with v
  | |- context [(?a =? ?b)%Z] =>
      znum a; znum b;
      let v := eval vm_compute in (a =? b)%Z in change (a =? b)%Z with v
  end;
  cbv beta iota.

(** Settling the two real tests of an armed pass. *)
Ltac settle :=
  unfold next_pitch; zcalc; lra.

Ltac armed_step :=
  rewrite armed_pass by (lra || lia); cbv zeta;
  first [ rewrite tilted_true by settle | rewrite tilted_false by settle ];
  try first [ rewrite quiet_true by lra | rewrite quiet_false by lra ];
  cbn [andb]; zcalc.

Section ConcreteRuns.

Local Open Scope R_scope.

Lemma armed_at_1s_snapshot : armed_at_1s = snapshot IMPACT_DETECTED 1000 1000 0 0.
Proof.
  unfold armed_at_1s, impact_at_1s. cbn [fst snd].
  now rewrite first_impact by lia.
Qed.

Lemma tumble_at_1400 :
  exists p, 56 < p < 57 /\
    loop (at_ms 1400) tumble armed_at_1s =
      (snapshot IMPACT_DETECTED 1400 1000 0 p, []).
Proof.
  exists (next_pitch 0 2.5 400). split; [settle|].
  rewrite armed_at_1s_snapshot. unfold tumble. armed_step. reflexivity.
Qed.

Lemma late_stillness_run :
  exists p, 52 < p < 55 /\
    run late_stillness armed_at_1s =
      (snapshot IMPACT_DETECTED 6997 1000 4001 p, []).
Proof.
  destruct tumble_at_1400 as (p0 & Hp0 & E0).
  eexists. split; cycle 1.
  - unfold late_stillness. cbn [run]. rewrite E0. fields.
    unfold resting. armed_step. fields. armed_step. reflexivity.
  - settle.
Qed.

Lemma race_tick_pass p :
  52 < p < 55 ->
  loop (fst race_tick) (snd race_tick)
       (snapshot IMPACT_DETECTED 6997 1000 4001 p) =
    (snapshot NORMAL 7002 1000 0 (next_pitch p 0 5), triggerFall).
Proof.
  intros Hp. unfold race_tick, resting. fields. armed_step. reflexivity.
Qed.

Lemma recovered_run :
  exists p, 52 < p < 55 /\
    run recovered armed_at_1s =
      (snapshot IMPACT_DETECTED 6600 1000 4001 p, []).
Proof.
  destruct tumble_at_1400 as (p0 & Hp0 & E0).
  eexists. split; cycle 1.
  - unfold recovered. cbn [run]. rewrite E0. fields.
    unfold resting. armed_step. fields. armed_step. reflexivity.
  - settle.
Qed.

Lemma upright_tick_pass p :
  52 < p < 55 ->
  loop (fst upright_tick) (snd upright_tick)
       (snapshot IMPACT_DETECTED 6600 1000 4001 p) =
    (snapshot NORMAL 7001 1000 0 (next_pitch p (-2.5) 401), []).
Proof.
  intros Hp. unfold upright_tick, untumble. fields. armed_step.
  reflexivity.
Qed.

Lemma early_stillness_run :
  exists p, 54 < p < 56 /\
    run early_stillness armed_at_1s =
      (snapshot IMPACT_DETECTED 1500 1000 1500 p, []).
Proof.
  destruct tumble_at_1400 as (p0 & Hp0 & E0).
  eexists. split; cycle 1.
  - unfold early_stillness. cbn [run]. rewrite E0. fields.
    unfold resting. armed_step. reflexivity.
  - settle.
Qed.

Lemma sway_back_pass p :
  54 < p < 56 ->
  exists q, 41 < q < 44 /\
    loop (at_ms 2500) sway_back (snapshot IMPACT_DETECTED 1500 1000 1500 p) =
      (snapshot IMPACT_DETECTED 2500 1000 1500 q, []).
Proof.
  intros Hp. eexists. split; cycle 1.
  - unfold sway_back. armed_step. reflexivity.
  - settle.
Qed.

Lemma sway_forth_pass q :
  41 < q < 44 ->
  loop (at_ms 4501) sway_forth (snapshot IMPACT_DETECTED 2500 1000 1500 q) =
    (snapshot POST_FALL 4501 1000 1500 (next_pitch q 0.14 2001),
     triggerFall).
Proof.
  intros Hq. unfold sway_forth. armed_step. reflexivity.
Qed.

Lemma fall_prefix_run :
  exists p, 54 < p < 56 /\
    run fall_prefix initial =
      (snapshot IMPACT_DETECTED 10500 10000 10500 p,
       [Println "IMPACT detected"]).
Proof.
  eexists. split; cycle 1.
  - unfold fall_prefix. cbn [run]. rewrite first_impact by lia. fields.
    unfold tumble. armed_step. fields.
    unfold resting. armed_step. reflexivity.
  - settle.
Qed.

(** The undisturbed fall is confirmed by the first pass later than
    3000 ms after the stillness began at 10500 ms. *)
Lemma undisturbed_run last :
  (12010 <= last <= 16000)%Z ->
  exists p,
    run (undisturbed last) initial =
      (snapshot (if (3000 <? last - 10500)%Z
                 then POST_FALL else IMPACT_DETECTED) last 10000 10500 p,
       Println "IMPACT detected"
         :: (if (3000 <? last - 10500)%Z then triggerFall else [])).
Proof.
  intros Hl. destruct fall_prefix_run as (p0 & Hp0 & E0).
  eexists. unfold undisturbed. rewrite run_app, E0. fields.
  cbn [run]. unfold resting. armed_step. fields. armed_step. fields.
  armed_step. rewrite (proj2 (Z.ltb_ge _ _)) by lia.
  cbn [app]. destruct (3000 <? last - 10500)%Z; reflexivity.
Qed.

(** After the burst at 12000 ms the timer restarts at 12005 ms, and the
    fall is confirmed by the first pass later than 3000 ms after that. *)
Lemma disturbed_run last :
  (12010 <= last <= 16000)%Z ->
  exists p,
    run (disturbed last) initial =
      (snapshot (if (3000 <? last - 12005)%Z
                 then POST_FALL else IMPACT_DETECTED) last 10000 12005 p,
       Println "IMPACT detected"
         :: (if (3000 <? last - 12005)%Z then triggerFall else [])).
Proof.
  intros Hl. destruct fall_prefix_run as (p0 & Hp0 & E0).
  eexists. unfold disturbed. rewrite run_app, E0. fields.
  cbn [run]. unfold spike. armed_step. fields.
  unfold resting. armed_step. fields.
  armed_step. rewrite (proj2 (Z.ltb_ge _ _)) by lia.
  cbn [app]. destruct (3000 <? last - 12005)%Z; reflexivity.
Qed.

End ConcreteRuns.

(** ** The stillness timer, continued *)

Section TimerRestart.

Context {F : Type} {ops : FloatOps F}.
Local Open Scope float_scope.

Implicit Types (c : Clock) (s : @Sample F) (g : @Globals F).

(** Motion while the angle condition holds clears the timer. *)
Lemma motion_clears_timer c s g :
  state g = IMPACT_DETECTED ->
  too_early c g = false ->
  angle_exceeded (sampled c s g) = true ->
  still s = false ->
  stillStartTime (fst (loop c s g)) = 0%Z /\ snd (loop c s g) = [].
Proof.
  intros St E An Sl.
  destruct (armed_tick c s g St E) as [_ O1].
  rewrite (armed_tick_timer c s g St E), O1.
  unfold confirms. rewrite An, Sl. cbn [andb].
  now destruct (timed_out c g).
Qed.

(** From a cleared timer, the next still tick starts the countdown
    afresh. *)
Lemma timer_starts_afresh c s g :
  state g = IMPACT_DETECTED ->
  too_early c g = false ->
  stillStartTime g = 0%Z ->
  angle_exceeded (sampled c s g) = true ->
  still s = true ->
  confirms c s g =
    (INACTIVITY_TIME_MS <? usub (millis_confirm c) (millis_still c))%Z
  /\ (timed_out c g = false ->
      stillStartTime (fst (loop c s g)) = millis_still c).
Proof.
  intros St E Z0 An Sl. split.
  - unfold confirms. rewrite An, Sl. cbn [andb].
    now apply inactivity_cleared.
  - intros To. rewrite (armed_tick_timer c s g St E), To, An, Sl.
    unfold start_still_timer.
    change (stillStartTime (sampled c s g)) with (stillStartTime g).
    now rewrite Z0.
Qed.

End TimerRestart.

Section Converse.

Context {F : Type} {ops : FloatOps F}.

Implicit Types (c : Clock) (s : @Sample F) (g : @Globals F).
Implicit Types (ins : list (Clock * @Sample F)).

(** A tick that ends armed fired neither test. *)
Lemma armed_after_tick c s g :
  state g = IMPACT_DETECTED ->
  too_early c g = false ->
  state (fst (loop c s g)) = IMPACT_DETECTED ->
  confirms c s g = false /\ timed_out c g = false.
Proof.
  intros St E S1. destruct (armed_tick c s g St E) as [S2 _].
  rewrite S2 in S1.
  destruct (timed_out c g); [discriminate|].
  destruct (confirms c s g); [discriminate|]. now split.
Qed.

Lemma stays_armed_pending ins g :
  state g = IMPACT_DETECTED -> stays_armed ins g -> pending ins g.
Proof.
  revert g. induction ins as [|[c s] rest IH]; intros g St H.
  - exact I.
  - cbn [stays_armed] in H. destruct H as [S1 H]. cbn [pending]. split.
    + destruct (too_early c g) eqn:E; [now left|right].
      now apply armed_after_tick.
    + now apply IH.
Qed.

(** An armed tick that prints nothing did not confirm. *)
Lemma silent_tick_unconfirmed c s g :
  state g = IMPACT_DETECTED ->
  too_early c g = false ->
  snd (loop c s g) = [] ->
  confirms c s g = false.
Proof.
  intros St E O. destruct (armed_tick c s g St E) as [_ O1].
  rewrite O1 in O. now destruct (confirms c s g).
Qed.

End Converse.

(** ** The concrete runs, pass by pass *)

Section RunsInDetail.

Local Open Scope R_scope.

Lemma recovered_stays_armed : stays_armed recovered armed_at_1s.
Proof.
  destruct tumble_at_1400 as (p0 & Hp0 & E0).
  unfold recovered. cbn [stays_armed]. rewrite E0. fields.
  split; [reflexivity|]. unfold resting. armed_step. fields.
  split; [reflexivity|]. armed_step. fields.
  split; [reflexivity|exact I].
Qed.

Lemma late_stillness_stays_armed : stays_armed late_stillness armed_at_1s.
Proof.
  destruct tumble_at_1400 as (p0 & Hp0 & E0).
  unfold late_stillness. cbn [stays_armed]. rewrite E0. fields.
  split; [reflexivity|]. unfold resting. armed_step. fields.
  split; [reflexivity|]. armed_step. fields.
  split; [reflexivity|exact I].
Qed.

Lemma armed_at_1s_state : state armed_at_1s = IMPACT_DETECTED.
Proof. now rewrite armed_at_1s_snapshot. Qed.

Lemma armed_at_1s_impactTime : impactTime armed_at_1s = 1000%Z.
Proof. now rewrite armed_at_1s_snapshot. Qed.

(** The tick at 7001 ms of the run [recovered]: the timeout fires, the
    confirmation does not. *)
Lemma upright_tick_facts :
  let g := fst (run recovered armed_at_1s) in
  let c := fst upright_tick in
  let s := snd upright_tick in
  state g = IMPACT_DETECTED
  /\ stillStartTime g = 4001%Z
  /\ too_early c g = false
  /\ timed_out c g = true
  /\ angle_exceeded (sampled c s g) = false
  /\ confirms c s g = false
  /\ state (fst (loop c s g)) = NORMAL
  /\ stillStartTime (fst (loop c s g)) = 0%Z.
Proof.
  destruct recovered_run as (p & Hp & E). rewrite E. cbn [fst].
  pose proof (upright_tick_pass p Hp) as L.
  assert (G : too_early (fst upright_tick)
                (snapshot IMPACT_DETECTED 6600 1000 4001 p) = false).
  { apply gate_snapshot; lia. }
  split; [reflexivity|]. split; [reflexivity|]. split; [exact G|].
  split; [reflexivity|]. split; [|split; [|split]].
  - unfold upright_tick, untumble. cbn [fst snd].
    rewrite sampled_snapshot by (lra || lia).
    rewrite angle_snapshot. apply tilted_false. settle.
  - apply silent_tick_unconfirmed; [reflexivity|exact G|now rewrite L].
  - now rewrite L.
  - now rewrite L.
Qed.

(** The tick at 7002 ms of the run [late_stillness]: the confirmation
    and the timeout both fire. *)
Lemma race_tick_facts :
  let g := fst (run late_stillness armed_at_1s) in
  let c := fst race_tick in
  let s := snd race_tick in
  state g = IMPACT_DETECTED
  /\ too_early c g = false
  /\ angle_exceeded (sampled c s g) = true
  /\ still s = true
  /\ inactivity_elapsed c (sampled c s g) = true
  /\ timed_out c g = true
  /\ loop c s g = (snapshot NORMAL 7002 1000 0 (pitch (sampled c s g)),
                   triggerFall).
Proof.
  destruct late_stillness_run as (p & Hp & E). rewrite E. cbn [fst].
  pose proof (race_tick_pass p Hp) as L.
  unfold race_tick, resting in *. cbn [fst snd] in *.
  rewrite sampled_snapshot by (lra || lia).
  split; [reflexivity|]. split; [apply gate_snapshot; lia|].
  split; [rewrite angle_snapshot; apply tilted_true; settle|].
  split; [rewrite still_level; apply quiet_true; lra|].
  split; [reflexivity|]. split; [reflexivity|].
  rewrite L. reflexivity.
Qed.

(** The two swaying ticks after the run [early_stillness]. *)
Lemma sway_facts :
  let g := fst (run early_stillness armed_at_1s) in
  let g1 := fst (loop (at_ms 2500) sway_back g) in
  state g = IMPACT_DETECTED
  /\ stillStartTime g = 1500%Z
  /\ impactTime g = 1000%Z
  /\ too_early (at_ms 2500) g = false
  /\ angle_exceeded (sampled (at_ms 2500) sway_back g) = false
  /\ timed_out (at_ms 2500) g = false
  /\ state g1 = IMPACT_DETECTED
  /\ too_early (at_ms 4501) g1 = false
  /\ angle_exceeded (sampled (at_ms 4501) sway_forth g1) = true
  /\ still sway_forth = true
  /\ state (fst (loop (at_ms 4501) sway_forth g1)) = POST_FALL
  /\ stillStartTime (fst (loop (at_ms 4501) sway_forth g1)) = 1500%Z
  /\ impactTime (fst (loop (at_ms 4501) sway_forth g1)) = 1000%Z
  /\ snd (loop (at_ms 4501) sway_forth g1) = triggerFall.
Proof.
  destruct early_stillness_run as (p & Hp & E). rewrite E. cbn [fst].
  destruct (sway_back_pass p Hp) as (q & Hq & L1). rewrite L1. cbn [fst].
  rewrite (sway_forth_pass q Hq). cbn [fst snd].
  unfold sway_back, sway_forth.
  rewrite !sampled_snapshot by (lra || lia). rewrite !angle_snapshot.
  split; [reflexivity|]. split; [reflexivity|]. split; [reflexivity|].
  split; [apply gate_snapshot; lia|].
  split; [apply tilted_false; settle|].
  split; [reflexivity|]. split; [reflexivity|].
  split; [apply gate_snapshot; lia|].
  split; [apply tilted_true; settle|].
  split; [rewrite still_level; apply quiet_true; lra|].
  repeat split.
Qed.

Lemma first_gate : too_early (at_ms 1000) (@initial R _) = false.
Proof. reflexivity. Qed.

Lemma jolt_hits : fgtb (accelMag jolt) IMPACT_THRESHOLD_G = true.
Proof.
  unfold jolt. rewrite accelMag_level by lra.
  apply fgtb_true. rewrite lit_impact. lra.
Qed.

Lemma resting_is_quiet :
  fgtb (gyroMag resting) (fmul MOTION_THRESHOLD (of_Z 2)) = false.
Proof.
  unfold resting. rewrite gyroMag_level, lit_motion.
  apply fgtb_false. cbn [fmul of_Z RealOps].
  rewrite Rabs_R0, Rabs_pos_eq by lra. lra.
Qed.

Lemma tumble_facts :
  too_early (at_ms 1400) armed_at_1s = false
  /\ angle_exceeded (sampled (at_ms 1400) tumble armed_at_1s) = true
  /\ still tumble = false.
Proof.
  rewrite armed_at_1s_snapshot. unfold tumble.
  rewrite sampled_snapshot by (lra || lia). rewrite angle_snapshot.
  split; [apply gate_snapshot; lia|].
  split; [apply tilted_true; settle|].
  rewrite still_level. apply quiet_false; lra.
Qed.

(** The filter of the sketch is the update of the specification with the
    literal 57.2958 for the degrees per radian. *)
Lemma filter_spec_update (dt : R) (s : @Sample R) (p r : R) :
  filter dt s p r = spec_update 57.2958 dt s p r.
Proof.
  unfold filter, spec_update, pitchAcc, rollAcc.
  rewrite lit_rad_to_deg. cbn [fadd fmul fsqrt fatan2 flit RealOps].
  unfold Rsqr, Q2R. cbn [Qnum Qden]. f_equal; field.
Qed.

End RunsInDetail.

(* ================================================================== *)
(** * The claims *)

Local Open Scope R_scope.

(* ------------------------------------------------------------------ *)
(** ** C1: at most one fall per impact episode *)

Section Claim1.

Context {F : Type} {ops : FloatOps F}.
Local Open Scope float_scope.

Implicit Types (c : Clock) (s : @Sample F) (g : @Globals F).
Implicit Types (ins : list (Clock * @Sample F)).

(** C1 (amended).  For every sequence of passes of [loop()] and every
    starting state, the classifier reports at most one fall per impact
    episode: the falls reported, plus one if an episode is still open at
    the end, never exceed the episodes the run had (the one open at the
    start, if any, and one per pass that moves NORMAL to
    IMPACT_DETECTED); so a run that registers no new impact reports at
    most one fall, and none when it does not start inside an episode.  A
    single pass reports at most one fall, and only when it starts in
    IMPACT_DETECTED and ends outside it.  An episode that stays armed
    until the tick on which the timeout fires ends in NORMAL on that
    tick; it has reported no fall at all if the confirmation does not
    fire on that tick, and exactly one fall, on that very tick, if it
    does. *)
Theorem C1_one_fall_per_episode ins g :
  (fall_count (snd (run ins g)) + open_episode (fst (run ins g))
   <= open_episode g + impacts ins g)%nat
  /\ (impacts ins g = 0%nat ->
      (fall_count (snd (run ins g)) <= open_episode g)%nat)
  /\ (forall c s,
        (fall_count (snd (loop c s g)) <= 1)%nat
        /\ (fall_count (snd (loop c s g)) = 1%nat ->
            state g = IMPACT_DETECTED
            /\ state (fst (loop c s g)) <> IMPACT_DETECTED))
  /\ (forall c s,
        state g = IMPACT_DETECTED ->
        stays_armed ins g ->
        too_early c (fst (run ins g)) = false ->
        timed_out c (fst (run ins g)) = true ->
        confirms c s (fst (run ins g)) = false ->
        state (fst (run (ins ++ [(c, s)]) g)) = NORMAL
        /\ fall_count (snd (run (ins ++ [(c, s)]) g)) = 0%nat)
  /\ (forall c s,
        state g = IMPACT_DETECTED ->
        stays_armed ins g ->
        too_early c (fst (run ins g)) = false ->
        timed_out c (fst (run ins g)) = true ->
        confirms c s (fst (run ins g)) = true ->
        state (fst (run (ins ++ [(c, s)]) g)) = NORMAL
        /\ fall_count (snd (run ins g)) = 0%nat
        /\ snd (loop c s (fst (run ins g))) = triggerFall
        /\ fall_count (snd (run (ins ++ [(c, s)]) g)) = 1%nat).
Proof.
  pose proof (run_budget ins g) as B. split; [exact B|].
  split; [|split; [|split]].
  - intros Z. lia.
  - intros c s. apply fall_closes_episode.
  - intros c s St Hs E To Cf.
    destruct (stays_armed_silent ins g St Hs) as (Sf & _ & Fc).
    destruct (expiry_tick c s _ Sf E To Cf) as (S1 & _ & O1).
    rewrite run_snoc. cbn [fst snd].
    rewrite fall_count_app, Fc, O1. split; [exact S1|reflexivity].
  - intros c s St Hs E To Cf.
    destruct (stays_armed_silent ins g St Hs) as (Sf & _ & Fc).
    destruct (armed_tick c s _ Sf E) as [S1 O1].
    rewrite To in S1. rewrite Cf in O1.
    rewrite run_snoc. cbn [fst snd].
    rewrite fall_count_app, Fc, O1.
    split; [exact S1|]. split; [reflexivity|]. split; reflexivity.
Qed.

End Claim1.

(** C1 as stated fails: after the impact at 1000 ms the episode stays
    armed through the ticks at 1400, 4001 and 6997 ms, on which nothing
    is confirmed and no fall is reported; the tick at 7002 ms times the
    impact out, the episode ends in NORMAL without a pass ever ending in
    POST_FALL, and yet a fall is reported on that tick. *)
Lemma C1_counterexample :
  state armed_at_1s = IMPACT_DETECTED
  /\ stays_armed late_stillness armed_at_1s
  /\ impacts (late_stillness ++ [race_tick]) armed_at_1s = 0%nat
  /\ fall_count (snd (run late_stillness armed_at_1s)) = 0%nat
  /\ timed_out (fst race_tick) (fst (run late_stillness armed_at_1s)) = true
  /\ state (fst (run (late_stillness ++ [race_tick]) armed_at_1s)) = NORMAL
  /\ fall_count (snd (run (late_stillness ++ [race_tick]) armed_at_1s))
     = 1%nat.
Proof.
  pose proof armed_at_1s_state as St.
  pose proof late_stillness_stays_armed as Hs.
  destruct (stays_armed_silent _ _ St Hs) as (Sf & Im & Fc).
  destruct race_tick_facts as (_ & _ & _ & _ & _ & To & L).
  split; [exact St|]. split; [exact Hs|].
  assert (R : run (late_stillness ++ [race_tick]) armed_at_1s
              = (fst (loop (fst race_tick) (snd race_tick)
                        (fst (run late_stillness armed_at_1s))),
                 (snd (run late_stillness armed_at_1s)
                  ++ snd (loop (fst race_tick) (snd race_tick)
                            (fst (run late_stillness armed_at_1s))))%list)).
  { change [race_tick] with [(fst race_tick, snd race_tick)].
    apply run_snoc. }
  split.
  { change [race_tick] with [(fst race_tick, snd race_tick)].
    rewrite impacts_app, Im. cbn [impacts Nat.add].
    rewrite Sf. reflexivity. }
  split; [exact Fc|]. split; [exact To|].
  rewrite R. cbn [fst snd]. rewrite fall_count_app, Fc, L.
  split; reflexivity.
Qed.

(** C1 (amended) on the run [recovered]: the episode stays armed until
    the tick at 7001 ms times it out unconfirmed, and no fall is
    reported. *)
Lemma C1_witness :
  state armed_at_1s = IMPACT_DETECTED
  /\ stays_armed recovered armed_at_1s
  /\ timed_out (fst upright_tick) (fst (run recovered armed_at_1s)) = true
  /\ confirms (fst upright_tick) (snd upright_tick)
       (fst (run recovered armed_at_1s)) = false
  /\ state (fst (run (recovered ++ [upright_tick]) armed_at_1s)) = NORMAL
  /\ fall_count (snd (run (recovered ++ [upright_tick]) armed_at_1s))
     = 0%nat.
Proof.
  destruct upright_tick_facts as (_ & _ & E & To & _ & Cf & _).
  split; [exact armed_at_1s_state|].
  split; [exact recovered_stays_armed|].
  split; [exact To|]. split; [exact Cf|].
  exact (proj1 (proj2 (proj2 (proj2
             (C1_one_fall_per_episode recovered armed_at_1s))))
           (fst upright_tick) (snd upright_tick)
           armed_at_1s_state recovered_stays_armed E To Cf).
Defined.

(* ------------------------------------------------------------------ *)
(** ** C2: what is reset on leaving IMPACT_DETECTED *)

Section Claim2.

Context {F : Type} {ops : FloatOps F}.
Local Open Scope float_scope.

Implicit Types (c : Clock) (s : @Sample F) (g : @Globals F).
Implicit Types (ins : list (Clock * @Sample F)).


End Claim2.



(* ------------------------------------------------------------------ *)
(** ** C3: the timeout clears unconfirmed impacts *)

Section Claim3.

Context {F : Type} {ops : FloatOps F}.
Local Open Scope float_scope.

Implicit Types (c : Clock) (s : @Sample F) (g : @Globals F).
Implicit Types (ins : list (Clock * @Sample F)).

(** C3 (amended).  Starting from IMPACT_DETECTED with impact time T, if
    on every tick up to and including the first one with
    [millis() - T > IMPACT_TIMEOUT_MS] the confirmation test does not
    fire, then after that tick the state is NORMAL, the stillness timer
    is cleared, and nothing at all was printed, so no fall was
    reported. *)
Theorem C3_timeout_clears_unconfirmed_impact ins c s g :
  state g = IMPACT_DETECTED ->
  pending ins g ->
  too_early c (fst (run ins g)) = false ->
  (IMPACT_TIMEOUT_MS <? usub (millis_timeout c) (impactTime g))%Z = true ->
  confirms c s (fst (run ins g)) = false ->
  state (fst (run (ins ++ [(c, s)]) g)) = NORMAL
  /\ stillStartTime (fst (run (ins ++ [(c, s)]) g)) = 0%Z
  /\ snd (run (ins ++ [(c, s)]) g) = []
  /\ fall_count (snd (run (ins ++ [(c, s)]) g)) = 0%nat.
Proof.
  intros St Hp E To Cf.
  destruct (pending_run ins g St Hp) as (Sf & It & Of).
  assert (To' : timed_out c (fst (run ins g)) = true).
  { unfold timed_out. now rewrite It. }
  destruct (expiry_tick c s _ Sf E To' Cf) as (S1 & T1 & O1).
  rewrite run_snoc. cbn [fst snd]. rewrite Of, O1.
  repeat split; assumption.
Qed.

End Claim3.

(** C3 as stated fails: after the impact at T = 1000 ms the confirmation
    fires on no tick before T + 6000 ms (the ticks at 1400, 4001 and
    6997 ms print nothing and stay armed); on the tick at 7002 ms the
    state becomes NORMAL, and a fall is reported on that very tick. *)
Lemma C3_counterexample :
  state armed_at_1s = IMPACT_DETECTED
  /\ impactTime armed_at_1s = 1000%Z
  /\ pending late_stillness armed_at_1s
  /\ snd (run late_stillness armed_at_1s) = []
  /\ millis_timeout (fst race_tick) = 7002%Z
  /\ state (fst (run (late_stillness ++ [race_tick]) armed_at_1s)) = NORMAL
  /\ fall_count (snd (run (late_stillness ++ [race_tick]) armed_at_1s))
     = 1%nat.
Proof.
  pose proof armed_at_1s_state as St.
  pose proof late_stillness_stays_armed as Hs.
  destruct race_tick_facts as (_ & _ & _ & _ & _ & _ & L).
  split; [exact St|]. split; [exact armed_at_1s_impactTime|].
  split; [now apply stays_armed_pending|].
  destruct (pending_run _ _ St (stays_armed_pending _ _ St Hs))
    as (_ & _ & O).
  split; [exact O|]. split; [reflexivity|].
  change [race_tick] with [(fst race_tick, snd race_tick)].
  rewrite run_snoc. cbn [fst snd]. rewrite O, L. split; reflexivity.
Qed.

(** C3 (amended) on the run [recovered] followed by the tick at
    7001 ms. *)
Lemma C3_witness :
  state armed_at_1s = IMPACT_DETECTED
  /\ pending recovered armed_at_1s
  /\ state (fst (run (recovered ++ [upright_tick]) armed_at_1s)) = NORMAL
  /\ stillStartTime (fst (run (recovered ++ [upright_tick]) armed_at_1s))
     = 0%Z
  /\ snd (run (recovered ++ [upright_tick]) armed_at_1s) = [].
Proof.
  destruct upright_tick_facts as (_ & _ & E & _ & _ & Cf & _).
  pose proof (stays_armed_pending recovered armed_at_1s
                armed_at_1s_state recovered_stays_armed) as Hp.
  assert (To : (IMPACT_TIMEOUT_MS
                  <? usub (millis_timeout (fst upright_tick))
                       (impactTime armed_at_1s))%Z = true).
  { rewrite armed_at_1s_impactTime. reflexivity. }
  destruct (C3_timeout_clears_unconfirmed_impact recovered
              (fst upright_tick) (snd upright_tick) armed_at_1s
              armed_at_1s_state Hp E To Cf) as (S1 & T1 & O1 & _).
  split; [exact armed_at_1s_state|]. split; [exact Hp|].
  split; [exact S1|]. split; [exact T1|exact O1].
Defined.

(* ------------------------------------------------------------------ *)
(** ** C4: motion restarts the stillness timer *)

(** C4 (amended).  While in IMPACT_DETECTED, a tick on which the angle
    condition holds and the gyroscope magnitude is not below
    MOTION_THRESHOLD clears the stillness timer and reports nothing; on
    the next still tick with the angle condition the timer is started at
    that tick's [millis()] reading, and the confirmation measures the
    inactivity time from there.  For a fall with impact at 10000 ms and
    stillness from 10500 ms, confirmation comes with the first pass later
    than 13500 ms; with a burst of motion at 12000 ms and stillness again
    from the next pass at 12005 ms, it comes with the first pass later
    than 15005 ms. *)
Theorem C4_motion_restarts_stillness_timer :
  (forall (F : Type) (ops : FloatOps F)
          (c : Clock) (s : @Sample F) (g : @Globals F),
     state g = IMPACT_DETECTED ->
     too_early c g = false ->
     angle_exceeded (sampled c s g) = true ->
     still s = false ->
     let g1 := fst (loop c s g) in
     stillStartTime g1 = 0%Z
     /\ snd (loop c s g) = []
     /\ forall c2 s2,
          state g1 = IMPACT_DETECTED ->
          too_early c2 g1 = false ->
          angle_exceeded (sampled c2 s2 g1) = true ->
          still s2 = true ->
          confirms c2 s2 g1 =
            (INACTIVITY_TIME_MS
               <? usub (millis_confirm c2) (millis_still c2))%Z
          /\ (timed_out c2 g1 = false ->
              stillStartTime (fst (loop c2 s2 g1)) = millis_still c2))
  /\ (forall last : Z,
        (12010 <= last <= 16000)%Z ->
        fall_count (snd (run (undisturbed last) initial))
          = (if (13500 <? last)%Z then 1 else 0)%nat
        /\ fall_count (snd (run (disturbed last) initial))
          = (if (15005 <? last)%Z then 1 else 0)%nat).
Proof.
  split.
  - intros F ops c s g St E An Sl g1.
    destruct (motion_clears_timer c s g St E An Sl) as [T0 O0].
    split; [exact T0|]. split; [exact O0|].
    intros c2 s2 St1 E2 An2 Sl2.
    exact (timer_starts_afresh c2 s2 g1 St1 E2 T0 An2 Sl2).
  - intros last Hl.
    destruct (undisturbed_run last Hl) as (p & Eu).
    destruct (disturbed_run last Hl) as (q & Ed).
    rewrite Eu, Ed. cbn [snd]. split.
    + destruct (Z.ltb_spec 3000 (last - 10500)),
        (Z.ltb_spec 13500 last); try lia; reflexivity.
    + destruct (Z.ltb_spec 3000 (last - 12005)),
        (Z.ltb_spec 15005 last); try lia; reflexivity.
Qed.

(** C4 as stated fails: with the burst of motion 2000 ms after the
    impact (at 12000 ms), the pass 5000 ms after the impact (at 15000 ms)
    does not confirm the fall: nothing has been reported and the
    classifier is still in IMPACT_DETECTED. *)
Lemma C4_counterexample :
  fall_count (snd (run (disturbed 15000) initial)) = 0%nat
  /\ state (fst (run (disturbed 15000) initial)) = IMPACT_DETECTED.
Proof.
  destruct (disturbed_run 15000) as (p & E); [lia|].
  rewrite E. split; reflexivity.
Qed.

(** C4 (amended) on the tick at 1400 ms, where the device is tumbling,
    and on the two falls: undisturbed, the fall is confirmed at
    13505 ms; disturbed, not at 13505 ms, not at 15005 ms, but at
    15010 ms. *)
Lemma C4_witness :
  stillStartTime (fst (loop (at_ms 1400) tumble armed_at_1s)) = 0%Z
  /\ fall_count (snd (run (undisturbed 13505) initial)) = 1%nat
  /\ fall_count (snd (run (disturbed 13505) initial)) = 0%nat
  /\ fall_count (snd (run (disturbed 15005) initial)) = 0%nat
  /\ fall_count (snd (run (disturbed 15010) initial)) = 1%nat.
Proof.
  destruct tumble_facts as (E & An & Sl).
  destruct C4_motion_restarts_stillness_timer as [Gen Runs].
  destruct (Gen R RealOps (at_ms 1400) tumble armed_at_1s
              armed_at_1s_state E An Sl) as (T0 & _).
  split; [exact T0|].
  destruct (Runs 13505%Z) as [U1 D1]; [lia|].
  destruct (Runs 15005%Z) as [_ D2]; [lia|].
  destruct (Runs 15010%Z) as [_ D3]; [lia|].
  split; [exact U1|]. split; [exact D1|]. split; [exact D2|exact D3].
Defined.

(* ------------------------------------------------------------------ *)
(** ** C5: arming on impact *)

Section Claim5.

Context {F : Type} {ops : FloatOps F}.
Local Open Scope float_scope.

Implicit Types (c : Clock) (s : @Sample F) (g : @Globals F).
Implicit Types (ins : list (Clock * @Sample F)).

(** C5.  On every tick processed in NORMAL, with the acceleration
    magnitude computed as the square root of the sum of the squares of
    the three components, divided by 9.81: the classifier moves to
    IMPACT_DETECTED exactly when that magnitude is above
    IMPACT_THRESHOLD_G; it then records the [millis()] reading as impact
    time and the orientation the filter has just stored as baseline, and
    prints the impact line; otherwise it stays in NORMAL, leaves the
    impact time, the stillness timer and the baseline as they were, and
    prints nothing. *)
Theorem C5_normal_arms_exactly_on_impact c s g :
  state g = NORMAL ->
  too_early c g = false ->
  let a := acceleration s in
  let g' := fst (loop c s g) in
  accelMag s = fsqrt (x a * x a + y a * y a + z a * z a) / flit (981 # 100)
  /\ (state g' = IMPACT_DETECTED
      <-> (accelMag s >? IMPACT_THRESHOLD_G) = true)
  /\ ((accelMag s >? IMPACT_THRESHOLD_G) = true ->
      impactTime g' = millis_impact c
      /\ pitchBefore g' = pitch g' /\ rollBefore g' = roll g'
      /\ (pitch g', roll g') = filter (elapsed c g) s (pitch g) (roll g)
      /\ stillStartTime g' = stillStartTime g
      /\ snd (loop c s g) = [Println "IMPACT detected"])
  /\ ((accelMag s >? IMPACT_THRESHOLD_G) = false ->
      state g' = NORMAL
      /\ impactTime g' = impactTime g
      /\ stillStartTime g' = stillStartTime g
      /\ pitchBefore g' = pitchBefore g /\ rollBefore g' = rollBefore g
      /\ snd (loop c s g) = []).
Proof.
  intros St E a g'. subst g'. rewrite (normal_tick c s g St E).
  split; [reflexivity|].
  destruct (accelMag s >? IMPACT_THRESHOLD_G) eqn:Hit; cbn [fst snd].
  - split; [split; reflexivity|]. split; [|discriminate].
    intros _. repeat split.
  - change (state (sampled c s g)) with (state g). rewrite St.
    split; [split; discriminate|]. split; [discriminate|].
    intros _. repeat split.
Qed.

End Claim5.

(** C5 on the very first tick, a jolt at 1000 ms. *)
Lemma C5_witness :
  state (@initial R _) = NORMAL
  /\ too_early (at_ms 1000) (@initial R _) = false
  /\ state (fst (loop (at_ms 1000) jolt initial)) = IMPACT_DETECTED
  /\ impactTime (fst (loop (at_ms 1000) jolt initial)) = 1000%Z.
Proof.
  destruct (C5_normal_arms_exactly_on_impact (at_ms 1000) jolt initial
              eq_refl first_gate) as (_ & Iff & Hit & _).
  split; [reflexivity|]. split; [exact first_gate|].
  split; [exact (proj2 Iff jolt_hits)|exact (proj1 (Hit jolt_hits))].
Defined.

(* ------------------------------------------------------------------ *)
(** ** C6: recovery from POST_FALL *)

Section Claim6.

Context {F : Type} {ops : FloatOps F}.
Local Open Scope float_scope.

Implicit Types (c : Clock) (s : @Sample F) (g : @Globals F).
Implicit Types (ins : list (Clock * @Sample F)).

(** C6.  On every tick processed in POST_FALL, with the gyroscope
    magnitude computed as the sum of the absolute values of the three
    angular rates: the classifier returns to NORMAL exactly when that
    magnitude is above [MOTION_THRESHOLD * 2], and stays in POST_FALL
    exactly when it is not; over any sequence of passes on which it is
    never above, the state is POST_FALL at the end, however long the
    sequence, and nothing is printed. *)
Theorem C6_post_fall_recovery :
  (forall c s g,
     state g = POST_FALL ->
     too_early c g = false ->
     let w := gyro s in
     gyroMag s = fabs (x w) + fabs (y w) + fabs (z w)
     /\ (state (fst (loop c s g)) = NORMAL
         <-> (gyroMag s >? MOTION_THRESHOLD * of_Z 2) = true)
     /\ (state (fst (loop c s g)) = POST_FALL
         <-> (gyroMag s >? MOTION_THRESHOLD * of_Z 2) = false))
  /\ (forall ins g,
        state g = POST_FALL ->
        all_quiet ins ->
        state (fst (run ins g)) = POST_FALL /\ snd (run ins g) = []).
Proof.
  split.
  - intros c s g St E w. split; [reflexivity|].
    rewrite (post_fall_tick c s g St E).
    destruct (gyroMag s >? MOTION_THRESHOLD * of_Z 2); cbn [fst].
    + split; split; (reflexivity || discriminate).
    + change (state (sampled c s g)) with (state g). rewrite St.
      split; split; (reflexivity || discriminate).
  - intros ins g. apply quiet_run.
Qed.

End Claim6.

(** C6 on a device that lies still after a fall. *)
Lemma C6_witness :
  let g := snapshot POST_FALL 4501 1000 1500 57 in
  let ins := [ (at_ms 4506, resting); (at_ms 4511, resting);
               (at_ms 4516, resting) ] in
  state (fst (loop (at_ms 4506) resting g)) = POST_FALL
  /\ state (fst (run ins g)) = POST_FALL
  /\ snd (run ins g) = [].
Proof.
  cbv zeta.
  destruct (@C6_post_fall_recovery R RealOps) as [One Many].
  assert (E : too_early (at_ms 4506) (snapshot POST_FALL 4501 1000 1500 57)
              = false) by (apply gate_snapshot; lia).
  destruct (One (at_ms 4506) resting
              (snapshot POST_FALL 4501 1000 1500 57) eq_refl E)
    as (_ & _ & Stay).
  split; [exact (proj2 Stay resting_is_quiet)|].
  apply Many; [reflexivity|].
  repeat constructor; exact resting_is_quiet.
Defined.

(* ------------------------------------------------------------------ *)
(** ** C7: the orientation update *)

(** C7 (amended).  In ideal arithmetic, for every sample, every [dt] and
    every previous pitch and roll, one update of the filter computes the
    accelerometer angles [atan2(ax, sqrt(ay^2+az^2)) * k] and
    [atan2(ay, az) * k], integrates [pitch + gyroY * dt * k] and
    [roll + gyroX * dt * k], and blends them 0.98 to 0.02, where the
    degrees-per-radian factor [k] is the literal 57.2958 of the sketch;
    and every tick stores exactly that pitch and roll, with [dt] the
    time elapsed since the previous tick. *)
Theorem C7_orientation_update :
  (forall (dt : R) (s : @Sample R) (p r : R),
     filter dt s p r = spec_update 57.2958 dt s p r)
  /\ (forall (c : Clock) (s : @Sample R) (g : @Globals R),
        too_early c g = false ->
        (pitch (fst (loop c s g)), roll (fst (loop c s g)))
        = spec_update 57.2958 (elapsed c g) s (pitch g) (roll g)).
Proof.
  split; [exact filter_spec_update|].
  intros c s g E. rewrite (tick_orientation c s g E).
  apply filter_spec_update.
Qed.

(** C7 as stated fails: for a device lying on its side, one update from
    pitch 0 stores [0.02 * (PI/2) * 57.2958], which is not the
    [0.02 * 90 = 1.8] degrees of the formula with 180/PI. *)
Lemma C7_counterexample :
  fst (filter 1 on_side 0 0) <> fst (spec_update_as_stated 1 on_side 0 0).
Proof.
  rewrite filter_spec_update.
  unfold spec_update_as_stated, spec_update, on_side.
  cbn [fst acceleration gyro x y z].
  unfold Rsqr. replace (0 * 0 + 0 * 0) with 0 by ring.
  rewrite sqrt_0, Ratan2_pos_0 by lra.
  pose proof PI_above as HP.
  replace (PI / 2 * (180 / PI)) with 90 by (field; lra).
  intros H. lra.
Qed.

(** C7 (amended) on the very first tick. *)
Lemma C7_witness :
  too_early (at_ms 1000) (@initial R _) = false
  /\ (pitch (fst (loop (at_ms 1000) jolt initial)),
      roll (fst (loop (at_ms 1000) jolt initial)))
     = spec_update 57.2958 (elapsed (at_ms 1000) initial) jolt 0 0.
Proof.
  split; [exact first_gate|].
  exact (proj2 C7_orientation_update (at_ms 1000) jolt initial first_gate).
Defined.

(* ------------------------------------------------------------------ *)
(** ** C8: a sensor that does not answer *)

Section Claim8.

Context {F : Type} {ops : FloatOps F}.

(** C8 (amended).  When [mpu.begin()] fails, the sketch prints
    "MPU6050 not found!" and then stays in the [while (1);] of
    [setup()] for ever: at every later step it is still there, [setup()]
    has not returned to its caller, [loop()] has never run (the globals
    are the initial ones) and nothing else has been printed. *)
Theorem C8_failed_begin_halts_in_setup
  (env : nat -> Clock * @Sample F) (n : nat) :
  let b := board_after false env (S n) in
  phase b = InSetup Spinning
  /\ setup_returned b = false
  /\ globals b = initial
  /\ serial b = [Println "MPU6050 not found!"].
Proof.
  cbv zeta. rewrite failed_begin_spins. repeat split.
Qed.

End Claim8.

(** C8 as stated fails: with a sensor that does not answer, [setup()]
    never returns, so the failure never reaches its caller. *)
Lemma C8_counterexample :
  ~ exists n : nat, setup_returned (board_after false calm n) = true.
Proof.
  intros [[|n] H].
  - discriminate H.
  - rewrite failed_begin_spins in H. discriminate H.
Qed.

(* ------------------------------------------------------------------ *)
(** ** C9: confirmation and timeout on one tick *)

Section Claim9.

Context {F : Type} {ops : FloatOps F}.
Local Open Scope float_scope.

Implicit Types (c : Clock) (s : @Sample F) (g : @Globals F).
Implicit Types (ins : list (Clock * @Sample F)).

(** C9.  On one tick in IMPACT_DETECTED on which the confirmation fires
    (angle condition, stillness, and the inactivity time elapsed) and the
    impact timeout has elapsed as well: the stillness block runs first,
    reports the fall and sets POST_FALL; the timeout block runs on its
    result and overwrites the state, so the tick ends in NORMAL with the
    stillness timer cleared, having reported exactly one fall. *)
Theorem C9_confirmation_and_timeout_on_one_tick c s g :
  state g = IMPACT_DETECTED ->
  too_early c g = false ->
  angle_exceeded (sampled c s g) = true ->
  still s = true ->
  inactivity_elapsed c (sampled c s g) = true ->
  timed_out c g = true ->
  let mid := stillness_block c (gyroMag s) (sampled c s g) in
  loop c s g = (timeout_block c (fst mid), snd mid)
  /\ snd mid = triggerFall
  /\ state (fst mid) = POST_FALL
  /\ state (fst (loop c s g)) = NORMAL
  /\ stillStartTime (fst (loop c s g)) = 0%Z
  /\ fall_count (snd (loop c s g)) = 1%nat.
Proof.
  intros St E An Sl In To mid.
  assert (L : loop c s g = (timeout_block c (fst mid), snd mid)).
  { rewrite (loop_tick _ _ _ E). now rewrite classify_armed. }
  assert (Cf : confirms c s g = true).
  { unfold confirms. now rewrite An, Sl, In. }
  destruct (armed_tick c s g St E) as [S1 O1]. rewrite To in S1.
  rewrite Cf in O1. split; [exact L|]. subst mid.
  rewrite stillness_block_output, stillness_block_state.
  unfold still in Sl. rewrite An, Sl, In. cbn [andb].
  split; [reflexivity|]. split; [reflexivity|].
  split; [exact S1|]. split.
  - rewrite armed_tick_timer by assumption. now rewrite To.
  - now rewrite O1.
Qed.

End Claim9.

(** C9 on the tick at 7002 ms of the run [late_stillness]. *)
Lemma C9_witness :
  let g := fst (run late_stillness armed_at_1s) in
  state g = IMPACT_DETECTED
  /\ timed_out (fst race_tick) g = true
  /\ state (fst (loop (fst race_tick) (snd race_tick) g)) = NORMAL
  /\ stillStartTime (fst (loop (fst race_tick) (snd race_tick) g)) = 0%Z
  /\ fall_count (snd (loop (fst race_tick) (snd race_tick) g)) = 1%nat.
Proof.
  destruct race_tick_facts as (St & E & An & Sl & In & To & _).
  cbv zeta.
  destruct (C9_confirmation_and_timeout_on_one_tick
              (fst race_tick) (snd race_tick) _ St E An Sl In To)
    as (_ & _ & _ & S1 & T1 & F1).
  split; [exact St|]. split; [exact To|].
  split; [exact S1|]. split; [exact T1|exact F1].
Defined.

(* ------------------------------------------------------------------ *)
(** ** C10: the timer while the angle condition does not hold *)

Section Claim10.

Context {F : Type} {ops : FloatOps F}.
Local Open Scope float_scope.

Implicit Types (c : Clock) (s : @Sample F) (g : @Globals F).
Implicit Types (ins : list (Clock * @Sample F)).

(** C10 (amended).  On a tick in IMPACT_DETECTED on which the angle
    condition does not hold, the stillness block changes nothing and
    nothing is printed; if the impact timeout does not fire on that tick,
    the tick ends in IMPACT_DETECTED with the stillness timer unchanged,
    and when on a following tick the angle condition holds with the
    device still, a timer that was running counts from its original
    start; if the timeout does fire on that tick, the tick ends in NORMAL
    with the timer cleared. *)
Theorem C10_timer_kept_while_angle_within c s g :
  state g = IMPACT_DETECTED ->
  too_early c g = false ->
  angle_exceeded (sampled c s g) = false ->
  let g1 := fst (loop c s g) in
  stillness_block c (gyroMag s) (sampled c s g) = (sampled c s g, [])
  /\ snd (loop c s g) = []
  /\ (timed_out c g = false ->
      state g1 = IMPACT_DETECTED /\ stillStartTime g1 = stillStartTime g)
  /\ (timed_out c g = true ->
      state g1 = NORMAL /\ stillStartTime g1 = 0%Z)
  /\ (forall c2 s2,
        timed_out c g = false ->
        stillStartTime g <> 0%Z ->
        too_early c2 g1 = false ->
        angle_exceeded (sampled c2 s2 g1) = true ->
        still s2 = true ->
        confirms c2 s2 g1 =
          (INACTIVITY_TIME_MS
             <? usub (millis_confirm c2) (stillStartTime g))%Z).
Proof.
  intros St E An g1.
  destruct (armed_tick c s g St E) as [S1 O1].
  pose proof (armed_tick_timer c s g St E) as T1.
  fold g1 in S1, T1.
  assert (Cf : confirms c s g = false).
  { unfold confirms. now rewrite An. }
  rewrite Cf in S1, O1. rewrite An in T1.
  split; [unfold stillness_block; now rewrite An|].
  split; [exact O1|]. split; [|split].
  - intros To. rewrite To in S1, T1. now split.
  - intros To. rewrite To in S1, T1. now split.
  - intros c2 s2 To NZ E2 An2 Sl2. rewrite To in T1.
    unfold confirms. rewrite An2, Sl2. cbn [andb].
    rewrite inactivity_running by (rewrite T1; exact NZ).
    now rewrite T1.
Qed.

End Claim10.

(** C10 as stated fails: on the tick at 7001 ms the classifier is in
    IMPACT_DETECTED, the angle condition does not hold, the stillness
    timer reads 4001 before the tick and 0 after it. *)
Lemma C10_counterexample :
  let g := fst (run recovered armed_at_1s) in
  let c := fst upright_tick in
  let s := snd upright_tick in
  state g = IMPACT_DETECTED
  /\ too_early c g = false
  /\ angle_exceeded (sampled c s g) = false
  /\ stillStartTime g = 4001%Z
  /\ stillStartTime (fst (loop c s g)) = 0%Z
  /\ stillStartTime (fst (loop c s g)) <> stillStartTime g.
Proof.
  destruct upright_tick_facts as (St & T0 & E & _ & An & _ & _ & T1).
  cbv zeta. rewrite T0, T1. repeat split; try assumption. discriminate.
Qed.

(** C10 (amended) on the tick at 2500 ms, where the device has swayed
    back, followed by the tick at 4501 ms, which confirms the fall
    3001 ms after the stillness began at 1500 ms. *)
Lemma C10_witness :
  let g := fst (run early_stillness armed_at_1s) in
  let g1 := fst (loop (at_ms 2500) sway_back g) in
  state g = IMPACT_DETECTED
  /\ angle_exceeded (sampled (at_ms 2500) sway_back g) = false
  /\ stillStartTime g1 = stillStartTime g
  /\ confirms (at_ms 4501) sway_forth g1 = true.
Proof.
  destruct sway_facts
    as (St & T0 & _ & E & An & To & _ & E2 & An2 & Sl2 & _).
  cbv zeta.
  destruct (C10_timer_kept_while_angle_within
              (at_ms 2500) sway_back _ St E An)
    as (_ & _ & Keep & _ & Resume).
  split; [exact St|]. split; [exact An|].
  split; [exact (proj2 (Keep To))|].
  rewrite (Resume (at_ms 4501) sway_forth To) by
    (try assumption; rewrite T0; discriminate).
  rewrite T0. reflexivity.
Defined.


(* ================================================================== *)
(** * Further properties of the fall detector *)

Section DetectorInvariants.

Context {F : Type} {ops : FloatOps F}.
Local Open Scope float_scope.
Local Open Scope Z_scope.

Implicit Types (c : Clock) (s : @Sample F) (g : @Globals F).
Implicit Types (ins : list (Clock * @Sample F)).

(** The state after any pass, by the state before it. *)
Lemma pass_state c s g :
  match state g with
  | NORMAL =>
      state (fst (loop c s g)) = NORMAL
      \/ state (fst (loop c s g)) = IMPACT_DETECTED
  | IMPACT_DETECTED => True
  | POST_FALL =>
      state (fst (loop c s g)) = POST_FALL
      \/ state (fst (loop c s g)) = NORMAL
  end.
Proof.
  destruct (state g) eqn:St; [| exact I |];
    (destruct (too_early c g) eqn:E;
     [ rewrite (loop_too_early _ _ _ E); cbn [fst]; rewrite St; auto | ]).
  - rewrite (normal_tick c s g St E).
    destruct (fgtb (accelMag s) IMPACT_THRESHOLD_G); cbn [fst]; auto.
  - rewrite (post_fall_tick c s g St E).
    destruct (fgtb (gyroMag s) (fmul MOTION_THRESHOLD (of_Z 2)));
      cbn [fst]; auto.
Qed.

(** The stillness timer after any pass that ends in NORMAL. *)
Lemma normal_keeps_timer_clear c s g :
  (state g = NORMAL -> stillStartTime g = 0) ->
  state (fst (loop c s g)) = NORMAL ->
  stillStartTime (fst (loop c s g)) = 0.
Proof.
  intros Inv. destruct (too_early c g) eqn:E.
  - rewrite (loop_too_early _ _ _ E). exact Inv.
  - destruct (state g) eqn:St.
    + rewrite (normal_tick c s g St E).
      destruct (fgtb (accelMag s) IMPACT_THRESHOLD_G); cbn [fst].
      * discriminate.
      * intros _. now apply Inv.
    + destruct (armed_tick c s g St E) as [S1 _].
      rewrite (armed_tick_timer c s g St E), S1.
      destruct (timed_out c g); [reflexivity|].
      destruct (confirms c s g); discriminate.
    + rewrite (post_fall_tick c s g St E).
      destruct (fgtb (gyroMag s) (fmul MOTION_THRESHOLD (of_Z 2)));
        cbn [fst]; [reflexivity|].
      change (state (sampled c s g)) with (state g). rewrite St.
      discriminate.
Qed.

Lemma timer_clear_in_normal ins g :
  (state g = NORMAL -> stillStartTime g = 0) ->
  state (fst (run ins g)) = NORMAL ->
  stillStartTime (fst (run ins g)) = 0.
Proof.
  revert g. induction ins as [|[c s] rest IH]; intros g Inv.
  - exact Inv.
  - cbn [run fst]. apply IH. now apply normal_keeps_timer_clear.
Qed.

End DetectorInvariants.


Section DetectorExtras.

Context {F : Type} {ops : FloatOps F}.
Local Open Scope float_scope.
Local Open Scope Z_scope.

Implicit Types (c : Clock) (s : @Sample F) (g : @Globals F).
Implicit Types (ins : list (Clock * @Sample F)).

(** X1.  Over every run from power-on, the stillness timer is 0 whenever
    the classifier is in NORMAL; so every pass that arms the classifier
    opens the episode with the stillness timer at 0, although the NORMAL
    case never assigns it. *)
Theorem X1_episode_opens_with_clear_timer ins c s :
  let g := fst (run ins initial) in
  (state g = NORMAL -> stillStartTime g = 0)
  /\ (state g = NORMAL ->
      state (fst (loop c s g)) = IMPACT_DETECTED ->
      stillStartTime (fst (loop c s g)) = 0).
Proof.
  cbv zeta.
  assert (H : state (fst (run ins (@initial F ops))) = NORMAL ->
              stillStartTime (fst (run ins (@initial F ops))) = 0).
  { apply timer_clear_in_normal. reflexivity. }
  split; [exact H|]. intros St S1.
  destruct (too_early c (fst (run ins initial))) eqn:E.
  - rewrite (loop_too_early _ _ _ E) in S1. cbn [fst] in S1. congruence.
  - rewrite (normal_tick c s _ St E) in *.
    destruct (fgtb (accelMag s) IMPACT_THRESHOLD_G); cbn [fst] in *.
    + exact (H St).
    + change (state (sampled c s (fst (run ins initial))))
        with (state (fst (run ins (@initial F ops)))) in S1.
      congruence.
Qed.


(** X3.  Zero doubles as "timer not started".  On an armed tick with the
    timer cleared, the angle condition holding, the device still and no
    timeout, the timer takes the [millis()] reading of line 111; if that
    reading is 0 the timer is still cleared afterwards, and the next such
    tick measures the inactivity from its own reading instead. *)
Theorem X3_timer_start_and_zero_reading c s g c2 s2 :
  state g = IMPACT_DETECTED ->
  too_early c g = false ->
  stillStartTime g = 0 ->
  angle_exceeded (sampled c s g) = true ->
  still s = true ->
  timed_out c g = false ->
  confirms c s g = false ->
  let g1 := fst (loop c s g) in
  state g1 = IMPACT_DETECTED
  /\ stillStartTime g1 = millis_still c
  /\ (too_early c2 g1 = false ->
      angle_exceeded (sampled c2 s2 g1) = true ->
      still s2 = true ->
      confirms c2 s2 g1 =
        (INACTIVITY_TIME_MS
           <? usub (millis_confirm c2)
                (if millis_still c =? 0
                 then millis_still c2 else millis_still c))).
Proof.
  intros St E Z0 An Sl To Cf g1.
  destruct (armed_tick c s g St E) as [S1 _]. rewrite To, Cf in S1.
  destruct (timer_starts_afresh c s g St E Z0 An Sl) as [_ T1].
  specialize (T1 To). fold g1 in S1, T1.
  split; [exact S1|]. split; [exact T1|].
  intros E2 An2 Sl2. unfold confirms. rewrite An2, Sl2. cbn [andb].
  destruct (Z.eqb_spec (millis_still c) 0) as [Zr|Nz].
  - apply inactivity_cleared. now rewrite T1.
  - rewrite inactivity_running by (rewrite T1; exact Nz). now rewrite T1.
Qed.

(** What one pass prints. *)
Lemma pass_output c s g :
  (snd (loop c s g) = []
   \/ snd (loop c s g) = [Println IMPACT_LINE]
   \/ snd (loop c s g) = triggerFall)
  /\ impact_count (snd (loop c s g)) = impacts [(c, s)] g.
Proof.
  cbn [impacts]. destruct (too_early c g) eqn:E.
  - rewrite (loop_too_early _ _ _ E). cbn [fst snd]. split; [auto|].
    now destruct (state g).
  - destruct (state g) eqn:St.
    + rewrite (normal_tick c s g St E).
      destruct (fgtb (accelMag s) IMPACT_THRESHOLD_G); cbn [fst snd].
      * split; [auto|reflexivity].
      * change (state (sampled c s g)) with (state g). rewrite St.
        split; [auto|reflexivity].
    + destruct (armed_tick c s g St E) as [_ O1]. rewrite O1.
      destruct (confirms c s g); split; auto.
    + rewrite (post_fall_tick c s g St E).
      destruct (fgtb (gyroMag s) (fmul MOTION_THRESHOLD (of_Z 2)));
        cbn [fst snd]; split; auto.
Qed.

Lemma impact_count_app (o1 o2 : list Output) :
  impact_count (o1 ++ o2) = (impact_count o1 + impact_count o2)%nat.
Proof.
  unfold impact_count. now rewrite List.filter_app, List.length_app.
Qed.

(** What a run prints, and how often it prints the impact line. *)
Lemma run_output ins g :
  Forall (fun o => o = Println IMPACT_LINE \/ o = Println FALL_LINE)
         (snd (run ins g))
  /\ impact_count (snd (run ins g)) = impacts ins g.
Proof.
  revert g. induction ins as [|[c s] rest IH]; intros g.
  - split; [constructor|reflexivity].
  - destruct (IH (fst (loop c s g))) as [A B].
    destruct (pass_output c s g) as [O N]. cbn [impacts] in N.
    cbn [run impacts fst snd]. rewrite impact_count_app, N, B.
    split; [|lia]. apply Forall_app. split; [|exact A].
    destruct O as [-> | [-> | ->]].
    + constructor.
    + constructor; [now left|constructor].
    + constructor; [now right|constructor].
Qed.

(** From power-on a run never prints more fall lines than impact
    lines. *)
Lemma falls_at_most_impact_lines ins g :
  (fall_count (snd (run ins g))
   <= open_episode g + impact_count (snd (run ins g)))%nat.
Proof.
  destruct (run_output ins g) as [_ B]. rewrite B.
  pose proof (run_budget ins g). lia.
Qed.

(** X4.  The serial output mirrors the state machine: a run prints
    nothing but impact lines and fall lines, exactly one impact line per
    pass that moves NORMAL to IMPACT_DETECTED, and so never more fall
    lines than impact lines unless it started inside an episode. *)
Theorem X4_output_mirrors_transitions ins g :
  Forall (fun o => o = Println IMPACT_LINE \/ o = Println FALL_LINE)
         (snd (run ins g))
  /\ impact_count (snd (run ins g)) = impacts ins g
  /\ (fall_count (snd (run ins g))
      <= open_episode g + impact_count (snd (run ins g)))%nat.
Proof.
  destruct (run_output ins g) as [A B].
  split; [exact A|]. split; [exact B|].
  apply falls_at_most_impact_lines.
Qed.

(** X5.  The impact time and the baseline orientation are written by the
    arming pass and by no other: a pass either moves NORMAL to
    IMPACT_DETECTED, storing the [millis()] reading of line 97 and the
    orientation it has just computed, or leaves all three untouched. *)
Theorem X5_baseline_written_only_when_arming c s g :
  let g' := fst (loop c s g) in
  (state g = NORMAL /\ state g' = IMPACT_DETECTED
   /\ impactTime g' = millis_impact c
   /\ pitchBefore g' = pitch g' /\ rollBefore g' = roll g')
  \/ (impactTime g' = impactTime g
      /\ pitchBefore g' = pitchBefore g
      /\ rollBefore g' = rollBefore g
      /\ ~ (state g = NORMAL /\ state g' = IMPACT_DETECTED)).
Proof.
  cbv zeta. destruct (too_early c g) eqn:E.
  - rewrite (loop_too_early _ _ _ E). cbn [fst]. right.
    repeat split. intros [A B]. congruence.
  - destruct (state g) eqn:St.
    + rewrite (normal_tick c s g St E).
      destruct (fgtb (accelMag s) IMPACT_THRESHOLD_G); cbn [fst].
      * left. repeat split.
      * right. repeat split. intros [_ B].
        change (state (sampled c s g)) with (state g) in B. congruence.
    + right. destruct (armed_tick_frame c s g St E) as (A & B & C).
      repeat split; auto. intros [D _]. discriminate D.
    + right. rewrite (post_fall_tick c s g St E).
      destruct (fgtb (gyroMag s) (fmul MOTION_THRESHOLD (of_Z 2)));
        cbn [fst]; repeat split; intros [D _]; discriminate D.
Qed.

End DetectorExtras.


Section DetectorTiming.

Context {F : Type} {ops : FloatOps F}.
Local Open Scope float_scope.
Local Open Scope Z_scope.

Implicit Types (c : Clock) (s : @Sample F) (g : @Globals F).
Implicit Types (ins : list (Clock * @Sample F)).

Lemma timer_sane_pass c s g t :
  timer_sane t g ->
  0 <= t -> t <= millis_impact c -> t <= millis_still c -> ordered c ->
  timer_sane (millis_timeout c) (fst (loop c s g)).
Proof.
  intros Sane Ht Hi Hs (O1 & O2 & O3). unfold timer_sane in *.
  destruct (too_early c g) eqn:E.
  - rewrite (loop_too_early _ _ _ E). cbn [fst].
    destruct (state g); auto. lia.
  - destruct (state g) eqn:St.
    + rewrite (normal_tick c s g St E).
      destruct (fgtb (accelMag s) IMPACT_THRESHOLD_G); cbn [fst].
      * cbn [state set_state impactTime stillStartTime set_baseline
             set_impactTime].
        change (stillStartTime (sampled c s g)) with (stillStartTime g).
        split; [lia|now left].
      * change (state (sampled c s g)) with (state g). now rewrite St.
    + destruct (armed_tick c s g St E) as [S1 _].
      destruct (armed_tick_frame c s g St E) as (F1 & _).
      rewrite S1, (armed_tick_timer c s g St E), F1.
      destruct (timed_out c g); [reflexivity|].
      destruct (confirms c s g); [exact I|].
      destruct Sane as [HT HS]. split; [lia|].
      destruct (angle_exceeded (sampled c s g)).
      * destruct (still s); [|now left].
        unfold start_still_timer.
        change (stillStartTime (sampled c s g)) with (stillStartTime g).
        destruct (Z.eqb_spec (stillStartTime g) 0).
        -- cbn [stillStartTime set_stillStartTime]. right. lia.
        -- cbv iota.
           change (stillStartTime (sampled c s g)) with (stillStartTime g).
           destruct HS; [contradiction|right; lia].
      * destruct HS; [now left|right; lia].
    + rewrite (post_fall_tick c s g St E).
      destruct (fgtb (gyroMag s) (fmul MOTION_THRESHOLD (of_Z 2)));
        cbn [fst].
      * reflexivity.
      * change (state (sampled c s g)) with (state g). now rewrite St.
Qed.

Lemma timer_sane_run ins rest g t :
  timer_sane t g -> 0 <= t ->
  chronological t (ins ++ rest) ->
  exists t', t <= t' /\ chronological t' rest
             /\ timer_sane t' (fst (run ins g)).
Proof.
  revert g t. induction ins as [|[c s] more IH]; intros g t Sane Ht Ch.
  - exists t. cbn. repeat split; auto. lia.
  - cbn [app chronological] in Ch.
    destruct Ch as (Hi & Hs & Ho & Hw & Ch).
    pose proof (timer_sane_pass c s g t Sane Ht Hi Hs Ho) as Sane'.
    destruct Ho as (O1 & O2 & O3).
    destruct (IH (fst (loop c s g)) (millis_timeout c) Sane')
      as (t' & Ht' & Ch' & S'); [lia|exact Ch|].
    exists t'. cbn [run fst]. repeat split; auto. lia.
Qed.

Lemma confirmation_not_early c s g t :
  timer_sane t g ->
  state g = IMPACT_DETECTED ->
  0 <= t -> t <= millis_still c -> ordered c ->
  millis_timeout c < ULONG_MODULUS ->
  confirms c s g = true ->
  impactTime g + INACTIVITY_TIME_MS < millis_confirm c.
Proof.
  intros Sane St Ht Hs (O1 & O2 & O3) Hw Cf.
  unfold timer_sane in Sane. rewrite St in Sane. destruct Sane as [HT HS].
  unfold confirms in Cf.
  destruct (angle_exceeded (sampled c s g)); [|discriminate].
  destruct (still s); [|discriminate]. cbn [andb] in Cf.
  destruct (Z.eq_dec (stillStartTime g) 0) as [Z0|NZ].
  - rewrite (inactivity_cleared c s g Z0) in Cf. apply Z.ltb_lt in Cf.
    unfold usub in Cf. rewrite Z.mod_small in Cf by lia. lia.
  - rewrite (inactivity_running c s g NZ) in Cf. apply Z.ltb_lt in Cf.
    destruct HS as [Z0|HS]; [contradiction|].
    unfold usub in Cf. rewrite Z.mod_small in Cf by lia. lia.
Qed.

(** X6.  On a clock that never goes back and has not wrapped around, a
    fall is never reported within INACTIVITY_TIME_MS of the impact: over
    every such run from power-on, a pass that reports a fall closes an
    episode whose impact time lies more than 3000 ms before the
    [millis()] reading of line 113. *)
Theorem X6_no_fall_within_inactivity_time ins c s :
  chronological 0 (ins ++ [(c, s)]) ->
  let g := fst (run ins initial) in
  fall_count (snd (loop c s g)) = 1%nat ->
  state g = IMPACT_DETECTED
  /\ impactTime g + INACTIVITY_TIME_MS < millis_confirm c.
Proof.
  intros Ch g Fall.
  destruct (timer_sane_run ins [(c, s)] (@initial F ops) 0)
    as (t & Ht & Ch' & Sane); [reflexivity|lia|exact Ch|].
  fold g in Sane. cbn [chronological] in Ch'.
  destruct Ch' as (_ & Hs & Ho & Hw & _).
  destruct (fall_closes_episode c s g) as [_ Cl].
  destruct (Cl Fall) as [St _]. split; [exact St|].
  assert (E : too_early c g = false).
  { destruct (too_early c g) eqn:E; [|reflexivity].
    rewrite (loop_too_early _ _ _ E) in Fall. discriminate Fall. }
  destruct (armed_tick c s g St E) as [_ O1]. rewrite O1 in Fall.
  destruct (confirms c s g) eqn:Cf; [|discriminate Fall].
  exact (confirmation_not_early c s g t Sane St Ht Hs Ho Hw Cf).
Qed.

(** X7.  The classifier has three arrows it never takes: no pass goes
    from NORMAL to POST_FALL or from POST_FALL to IMPACT_DETECTED, and a
    pass ends in POST_FALL only if it started there or if it started in
    IMPACT_DETECTED and reports a fall on this very pass. *)
Theorem X7_transitions_never_taken c s g :
  let g' := fst (loop c s g) in
  (state g = NORMAL -> state g' <> POST_FALL)
  /\ (state g = POST_FALL -> state g' <> IMPACT_DETECTED)
  /\ (state g' = POST_FALL ->
      state g = POST_FALL
      \/ (state g = IMPACT_DETECTED /\ snd (loop c s g) = triggerFall)).
Proof.
  cbv zeta. pose proof (pass_state c s g) as P.
  destruct (state g) eqn:St.
  - split; [intros _; destruct P as [-> | ->]; discriminate|].
    split; [discriminate|].
    intros SP. destruct P as [Q | Q]; rewrite Q in SP; discriminate.
  - split; [discriminate|]. split; [discriminate|].
    intros SP. right. split; [reflexivity|].
    destruct (too_early c g) eqn:E.
    + rewrite (loop_too_early _ _ _ E) in SP. cbn [fst] in SP. congruence.
    + destruct (armed_tick c s g St E) as [S1 O1]. rewrite S1 in SP.
      rewrite O1. destruct (timed_out c g); [discriminate|].
      destruct (confirms c s g); [reflexivity|discriminate].
  - split; [discriminate|].
    split; [intros _; destruct P as [-> | ->]; discriminate|].
    intros _. now left.
Qed.

End DetectorTiming.

Section BoardRuns.

Context {F : Type} {ops : FloatOps F}.

Lemma passes_snoc (env : nat -> Clock * @Sample F) (k n : nat) :
  passes env k (S n) = (passes env k n ++ [env (k + n)%nat])%list.
Proof. unfold passes. now rewrite List.seq_S, List.map_app. Qed.

(** X8.  With a sensor that answers, the sketch is [setup()] followed by
    a run of [loop()] from the initial globals: two steps after power-on
    the board enters the control loop, and [n] steps later its globals
    and its serial output are those of the run over the [n] passes, after
    the ready line; so from power-on the board never prints more fall
    lines than impact lines. *)
Theorem X8_board_runs_the_loop (env : nat -> Clock * @Sample F) (n : nat) :
  let r := run (passes env 2 n) initial in
  board_after true env (2 + n) =
    {| phase := InLoop; globals := fst r;
       serial := Println "Fall detection ready" :: snd r |}
  /\ (fall_count (serial (board_after true env (2 + n)))
      <= impact_count (serial (board_after true env (2 + n))))%nat.
Proof.
  cbv zeta.
  assert (H : board_after true env (2 + n) =
    {| phase := InLoop; globals := fst (run (passes env 2 n) initial);
       serial := Println "Fall detection ready"
                   :: snd (run (passes env 2 n) initial) |}).
  { induction n as [|n IH].
    - reflexivity.
    - change (board_after true env (2 + S n))
        with (board_step true (fst (env (2 + n)%nat))
                (snd (env (2 + n)%nat)) (board_after true env (2 + n))).
      rewrite IH, passes_snoc. unfold board_step. cbn [phase globals serial].
      destruct (env (2 + n)%nat) as [c s] eqn:En. cbn [fst snd].
      rewrite run_snoc. reflexivity. }
  split; [exact H|]. rewrite H. cbn [serial].
  exact (falls_at_most_impact_lines (passes env 2 n) initial).
Qed.

End BoardRuns.


(** ** The filter in ideal arithmetic *)

Section FilterFacts.

Local Open Scope R_scope.

Lemma Ratan2_range (b a : R) : - PI < Ratan2 b a <= PI.
Proof.
  pose proof PI_RGT_0 as HP. pose proof (atan_bound (b / a)) as [L U].
  unfold Ratan2.
  destruct (Rlt_dec 0 a); [lra|].
  destruct (Rlt_dec a 0) as [Na|].
  - destruct (Rle_dec 0 b) as [Pb|Nb].
    + assert (b / a <= 0).
      { pose proof (Rinv_lt_0_compat a Na). unfold Rdiv. nra. }
      assert (atan (b / a) <= 0).
      { destruct (Req_dec (b / a) 0) as [-> | Ne].
        - rewrite atan_0. lra.
        - left. rewrite <- atan_0. apply atan_increasing. lra. }
      lra.
    + assert (0 < b / a).
      { pose proof (Rinv_lt_0_compat a Na). unfold Rdiv. nra. }
      assert (0 < atan (b / a)).
      { rewrite <- atan_0. now apply atan_increasing. }
      lra.
  - destruct (Rlt_dec 0 b); [lra|]. destruct (Rlt_dec b 0); lra.
Qed.

Lemma Ratan2_right_half (b a : R) :
  0 <= a -> - (PI / 2) <= Ratan2 b a <= PI / 2.
Proof.
  intros Ha. pose proof PI_RGT_0 as HP.
  pose proof (atan_bound (b / a)) as [L U]. unfold Ratan2.
  destruct (Rlt_dec 0 a); [lra|].
  destruct (Rlt_dec a 0); [lra|].
  destruct (Rlt_dec 0 b); [lra|]. destruct (Rlt_dec b 0); lra.
Qed.

Lemma pitchAcc_real (s : @Sample R) :
  pitchAcc s =
    Ratan2 (x (acceleration s))
      (sqrt (y (acceleration s) * y (acceleration s)
             + z (acceleration s) * z (acceleration s))) * 57.2958.
Proof. unfold pitchAcc. now rewrite lit_rad_to_deg. Qed.

Lemma rollAcc_real (s : @Sample R) :
  rollAcc s = Ratan2 (y (acceleration s)) (z (acceleration s)) * 57.2958.
Proof. unfold rollAcc. now rewrite lit_rad_to_deg. Qed.

Lemma filter_real (dt : R) (s : @Sample R) (p r : R) :
  filter dt s p r =
    (0.98 * (p + y (gyro s) * dt * 57.2958) + 0.02 * pitchAcc s,
     0.98 * (r + x (gyro s) * dt * 57.2958) + 0.02 * rollAcc s).
Proof.
  unfold filter. rewrite lit_rad_to_deg.
  cbn [fadd fmul flit RealOps]. unfold Q2R. cbn [Qnum Qden].
  f_equal; field.
Qed.

Lemma pitchAcc_bound (s : @Sample R) :
  Rabs (pitchAcc s) <= 57.2958 * (PI / 2).
Proof.
  rewrite pitchAcc_real.
  pose proof (Ratan2_right_half (x (acceleration s))
                (sqrt (y (acceleration s) * y (acceleration s)
                       + z (acceleration s) * z (acceleration s)))
                (sqrt_pos _)) as [L U].
  unfold Rabs. destruct (Rcase_abs _); lra.
Qed.

Lemma rollAcc_bound (s : @Sample R) :
  Rabs (rollAcc s) <= 57.2958 * PI.
Proof.
  rewrite rollAcc_real.
  pose proof (Ratan2_range (y (acceleration s)) (z (acceleration s)))
    as [L U].
  unfold Rabs. destruct (Rcase_abs _); lra.
Qed.

(** One update keeps an estimate within [49 * D + A] when the gyroscope
    step is within [D] and the accelerometer angle within [A]. *)
Lemma blend_bound (p d a D A : R) :
  Rabs d <= D -> Rabs a <= A -> Rabs p <= 49 * D + A ->
  Rabs (0.98 * (p + d) + 0.02 * a) <= 49 * D + A.
Proof.
  unfold Rabs. intros Hd Ha Hp.
  destruct (Rcase_abs d), (Rcase_abs a), (Rcase_abs p),
    (Rcase_abs (0.98 * (p + d) + 0.02 * a)); lra.
Qed.

(** X9.  In ideal arithmetic the accelerometer angles have a fixed
    range, whatever the sample: the pitch angle lies within
    [57.2958 * PI/2] degrees of zero (the second argument of its [atan2]
    is a square root) and the roll angle within [57.2958 * PI]. *)
Theorem X9_accelerometer_angles_bounded (s : @Sample R) :
  Rabs (pitchAcc s) <= 57.2958 * (PI / 2)
  /\ Rabs (rollAcc s) <= 57.2958 * PI.
Proof. split; [apply pitchAcc_bound|apply rollAcc_bound]. Qed.

(** X10.  In ideal arithmetic the filter cannot run away: if on a pass
    the gyroscope steps [gyro * dt * 57.2958] are within [D] degrees,
    then a pitch within [49 * D + 57.2958 * PI/2] stays within it, and a
    roll within [49 * D + 57.2958 * PI] stays within it, whether or not
    the pass samples. *)
Theorem X10_orientation_stays_bounded
  (c : Clock) (s : @Sample R) (g : @Globals R) (D : R) :
  Rabs (y (gyro s) * elapsed c g * 57.2958) <= D ->
  Rabs (x (gyro s) * elapsed c g * 57.2958) <= D ->
  Rabs (pitch g) <= 49 * D + 57.2958 * (PI / 2) ->
  Rabs (roll g) <= 49 * D + 57.2958 * PI ->
  Rabs (pitch (fst (loop c s g))) <= 49 * D + 57.2958 * (PI / 2)
  /\ Rabs (roll (fst (loop c s g))) <= 49 * D + 57.2958 * PI.
Proof.
  intros Hy Hx Hp Hr. destruct (too_early c g) eqn:E.
  - rewrite (loop_too_early _ _ _ E). now split.
  - pose proof (tick_orientation c s g E) as T.
    rewrite filter_real in T. injection T as -> ->.
    split; apply blend_bound; auto.
    + rewrite <- pitchAcc_real. apply pitchAcc_bound.
    + rewrite <- rollAcc_real. apply rollAcc_bound.
Qed.

(** X11.  In ideal arithmetic, while no rotation is measured the
    estimate converges geometrically to the accelerometer angles: after
    [n] updates with the same sample and zero gyroscope step, the
    distance of the pitch (and of the roll) from its accelerometer angle
    is [0.98 ^ n] times what it was. *)
Theorem X11_estimate_converges_when_not_rotating
  (dt : R) (s : @Sample R) (p r : R) (n : nat) :
  y (gyro s) * dt = 0 ->
  x (gyro s) * dt = 0 ->
  let pr := Nat.iter n (fun q => filter dt s (fst q) (snd q)) (p, r) in
  fst pr - pitchAcc s = 0.98 ^ n * (p - pitchAcc s)
  /\ snd pr - rollAcc s = 0.98 ^ n * (r - rollAcc s).
Proof.
  intros Hy Hx. cbv zeta. induction n as [|n [IHp IHr]].
  - cbn. split; lra.
  - rewrite Nat.iter_succ. cbv beta. rewrite filter_real.
    set (q := Nat.iter n (fun q => filter dt s (fst q) (snd q)) (p, r))
      in *.
    cbn [fst snd pow]. rewrite Hy, Hx, !Rmult_assoc, <- IHp, <- IHr.
    split; lra.
Qed.

End FilterFacts.


(* ================================================================== *)
(** * The obstacle sketches *)

Section LevelFacts.

Local Open Scope Z_scope.

Lemma level_cases (d : Z) :
  (Haptics.getVibrationLevel d = 0 /\ (d = -1 \/ 100 < d))
  \/ (Haptics.getVibrationLevel d = 1 /\ 66 < d <= 100)
  \/ (Haptics.getVibrationLevel d = 2 /\ 33 < d <= 66)
  \/ (Haptics.getVibrationLevel d = 3 /\ d <= 33 /\ d <> -1).
Proof.
  unfold Haptics.getVibrationLevel.
  destruct (Z.eqb_spec d (-1)); cbn [orb]; [left; auto|].
  destruct (Z.ltb_spec 100 d); [left; auto|].
  destruct (Z.ltb_spec 66 d); [right; left; split; [reflexivity|lia]|].
  destruct (Z.ltb_spec 33 d); [right; right; left; split; [reflexivity|lia]|].
  right; right; right. repeat split; lia.
Qed.

Lemma pwm_values :
  Haptics.pwm_of 0 = 0 /\ Haptics.pwm_of 1 = 130
  /\ Haptics.pwm_of 2 = 175 /\ Haptics.pwm_of 3 = 255.
Proof. repeat split. Qed.

(** X12.  Whatever distance it is given, [getVibrationLevel] returns a
    level from 0 to 3, so [vibrationPWM[level]] never indexes outside
    the table and the duty written is one of 0, 130, 175 and 255; the
    duty is 0 exactly when the distance is the timeout marker -1 or
    above 100 cm. *)
Theorem X12_level_indexes_the_table (d : Z) :
  0 <= Haptics.getVibrationLevel d <= 3
  /\ (Z.to_nat (Haptics.getVibrationLevel d)
      < List.length Haptics.vibrationPWM)%nat
  /\ In (Haptics.pwm_of (Haptics.getVibrationLevel d)) Haptics.vibrationPWM
  /\ (Haptics.pwm_of (Haptics.getVibrationLevel d) = 0
      <-> d = -1 \/ 100 < d).
Proof.
  destruct (level_cases d) as [[E H] | [[E H] | [[E H] | [E H]]]];
    destruct pwm_values as (P0 & P1 & P2 & P3);
    rewrite E, ?P0, ?P1, ?P2, ?P3; cbn; repeat split; try lia; auto;
    intros; try lia; try discriminate.
Qed.

(** X13.  Apart from the timeout marker, a nearer obstacle never gets a
    weaker vibration: for distances [d1 <= d2], neither of them -1, the
    level and the duty for [d1] are at least those for [d2].  Negative
    distances other than -1 are treated as nearest. *)
Theorem X13_nearer_is_never_weaker (d1 d2 : Z) :
  d1 <> -1 -> d2 <> -1 -> d1 <= d2 ->
  Haptics.getVibrationLevel d2 <= Haptics.getVibrationLevel d1
  /\ Haptics.pwm_of (Haptics.getVibrationLevel d2)
     <= Haptics.pwm_of (Haptics.getVibrationLevel d1)
  /\ (d1 < -1 -> Haptics.getVibrationLevel d1 = 3).
Proof.
  intros N1 N2 Le.
  destruct (level_cases d1) as [[E1 H1] | [[E1 H1] | [[E1 H1] | [E1 H1]]]];
  destruct (level_cases d2) as [[E2 H2] | [[E2 H2] | [[E2 H2] | [E2 H2]]]];
    destruct pwm_values as (P0 & P1 & P2 & P3);
    rewrite E1, E2, ?P0, ?P1, ?P2, ?P3; repeat split; intros; lia.
Qed.

End LevelFacts.


Section PatternFacts.

Local Open Scope Z_scope.

Lemma analog_writes_app (a b : list Action) :
  analog_writes (a ++ b) = (analog_writes a ++ analog_writes b)%list.
Proof.
  induction a as [|x a IH]; [reflexivity|].
  destruct x; cbn; now rewrite ?IH.
Qed.

Lemma pwm_in_table (d : Z) :
  In (Haptics.pwm_of (Haptics.getVibrationLevel d)) Haptics.vibrationPWM.
Proof.
  destruct pwm_values as (P0 & P1 & P2 & P3).
  destruct (level_cases d) as [[E H] | [[E H] | [[E H] | [E H]]]];
    rewrite E, ?P0, ?P1, ?P2, ?P3; cbn; auto.
Qed.

(** What a pattern writes, for any pattern number. *)
Lemma pattern_writes (pin pwm pattern : Z) :
  Forall (fun w => fst w = pin /\ (snd w = pwm \/ snd w = 0))
         (analog_writes (Haptics.applyVibrationPattern pin pwm pattern)).
Proof.
  assert (W : forall l : list (Z * Z),
             Forall (fun w => w = (pin, pwm) \/ w = (pin, 0)) l ->
             Forall (fun w => fst w = pin /\ (snd w = pwm \/ snd w = 0)) l).
  { intros l. apply Forall_impl. intros w [-> | ->]; cbn; auto. }
  apply W.
  destruct pattern as [|p|p]; [| |constructor].
  - cbn. repeat constructor.
  - destruct p as [[q|q|]|[q|q|]|]; cbn;
      repeat (constructor; [first [now left | now right]|]);
      constructor.
Qed.

(** X14.  Every vibration pattern from 0 to 3 touches only the motor it
    is given: it starts by writing the duty, writes nothing but the duty
    and 0, leaves the motor off unless it is the continuous pattern 0,
    and blocks for at most 350 ms; any other pattern number does
    nothing at all. *)
Theorem X14_vibration_patterns (pin pwm pattern : Z) :
  let acts := Haptics.applyVibrationPattern pin pwm pattern in
  (0 <= pattern <= 3 ->
   List.hd_error (analog_writes acts) = Some (pin, pwm)
   /\ Forall (fun w => fst w = pin /\ (snd w = pwm \/ snd w = 0))
             (analog_writes acts)
   /\ (pattern <> 0 ->
       List.last (analog_writes acts) (pin, pwm) = (pin, 0))
   /\ 0 <= delayed acts <= 350)
  /\ (~ 0 <= pattern <= 3 -> acts = []).
Proof.
  cbv zeta. split.
  - intros H. split; [|split; [apply pattern_writes|]].
    + assert (C : pattern = 0 \/ pattern = 1 \/ pattern = 2 \/ pattern = 3)
        by lia.
      destruct C as [-> | [-> | [-> | ->]]]; reflexivity.
    + assert (C : pattern = 0 \/ pattern = 1 \/ pattern = 2 \/ pattern = 3)
        by lia.
      destruct C as [-> | [-> | [-> | ->]]]; cbn; split; try lia;
        intros; try reflexivity; congruence.
  - intros H. destruct pattern as [|p|p]; [lia| |reflexivity].
    destruct p as [[q|q|]|[q|q|]|]; try reflexivity; lia.
Qed.

End PatternFacts.

Section PollFacts.

Context {F : Type} {ops : FloatOps F} {conv : FloatToLong F}.
Local Open Scope Z_scope.

Lemma motor_pin (i : nat) :
  (i < 3)%nat -> In (List.nth i Haptics.motorPins 0) Haptics.motorPins.
Proof.
  intros H. destruct i as [|[|[|i]]]; cbn; auto. lia.
Qed.

Lemma poll_writes (g : Haptics.Command) (i : nat) (duration : Z) :
  analog_writes (snd (Haptics.poll g i duration)) =
    if (negb (Haptics.vibrationEnabled g =? 0)
        && negb (List.nth i (Haptics.obj g) 0 =? 0)
        && (0 <? Haptics.getVibrationLevel
                   (fst (Haptics.getDistanceCM
                           (List.nth i Haptics.trigPins 0)
                           (List.nth i Haptics.echoPins 0) duration))))%bool
    then analog_writes
           (Haptics.applyVibrationPattern (List.nth i Haptics.motorPins 0)
              (Haptics.pwm_of
                 (Haptics.getVibrationLevel
                    (fst (Haptics.getDistanceCM
                            (List.nth i Haptics.trigPins 0)
                            (List.nth i Haptics.echoPins 0) duration))))
              (Haptics.vibrationPattern g))
    else [(List.nth i Haptics.motorPins 0, 0)].
Proof.
  unfold Haptics.poll. cbn [snd].
  rewrite !analog_writes_app. cbn [Haptics.getDistanceCM snd].
  change (analog_writes (Haptics.trigger_pulse _)) with (@nil (Z * Z)).
  cbn [app]. rewrite List.app_nil_r.
  now destruct (_ && _ && _)%bool.
Qed.

Lemma poll_safe (g : Haptics.Command) (i : nat) (duration : Z) :
  (i < 3)%nat ->
  Forall (fun w => In (fst w) Haptics.motorPins
                   /\ In (snd w) Haptics.vibrationPWM)
         (analog_writes (snd (Haptics.poll g i duration))).
Proof.
  intros Hi. rewrite poll_writes. pose proof (motor_pin i Hi) as M.
  destruct (_ && _ && _)%bool.
  - eapply Forall_impl; [|apply pattern_writes].
    intros [pin v] [Hp Hv]. cbn [fst snd] in *. subst pin. split; [exact M|].
    destruct Hv as [-> | ->]; [apply pwm_in_table|cbn; auto].
  - constructor; [|constructor]. split; [exact M|cbn; auto].
Qed.

(** X16.  A motor is switched off when there is nothing to signal: if
    vibration is disabled, or the object flag of the sensor is 0, or the
    echo timed out, the round for that sensor writes exactly one duty to
    its motor, and it is 0.  With vibration enabled, the flag set, a
    level above 0 and a pattern from 0 to 3, the first duty written to
    the motor is the positive one the level selects. *)
Theorem X16_motor_off_without_cause
  (g : Haptics.Command) (i : nat) (duration : Z) :
  let motor := List.nth i Haptics.motorPins 0 in
  let level :=
    Haptics.getVibrationLevel
      (fst (Haptics.getDistanceCM (List.nth i Haptics.trigPins 0)
              (List.nth i Haptics.echoPins 0) duration)) in
  let writes := analog_writes (snd (Haptics.poll g i duration)) in
  (Haptics.vibrationEnabled g = 0
   \/ List.nth i (Haptics.obj g) 0 = 0
   \/ duration = 0 ->
   writes = [(motor, 0)])
  /\ (Haptics.vibrationEnabled g <> 0 ->
      List.nth i (Haptics.obj g) 0 <> 0 ->
      0 < level ->
      0 <= Haptics.vibrationPattern g <= 3 ->
      List.hd_error writes = Some (motor, Haptics.pwm_of level)
      /\ 0 < Haptics.pwm_of level).
Proof.
  cbv zeta. rewrite poll_writes. split.
  - intros [H | [H | H]].
    + rewrite H. reflexivity.
    + rewrite H. cbn [Z.eqb negb andb]. now rewrite Bool.andb_false_r.
    + subst duration. cbn [Haptics.getDistanceCM fst Z.eqb].
      change (Haptics.getVibrationLevel (-1)) with 0.
      cbn [Z.ltb Z.compare]. now rewrite Bool.andb_false_r.
  - intros He Ho Hl Hp.
    destruct (Z.eqb_spec (Haptics.vibrationEnabled g) 0); [contradiction|].
    destruct (Z.eqb_spec (List.nth i (Haptics.obj g) 0) 0);
      [contradiction|].
    rewrite (proj2 (Z.ltb_lt _ _) Hl). cbn [negb andb].
    split.
    + assert (C : Haptics.vibrationPattern g = 0
                  \/ Haptics.vibrationPattern g = 1
                  \/ Haptics.vibrationPattern g = 2
                  \/ Haptics.vibrationPattern g = 3) by lia.
      destruct C as [-> | [-> | [-> | ->]]]; reflexivity.
    + destruct pwm_values as (P0 & P1 & P2 & P3).
      destruct (level_cases
                  (fst (Haptics.getDistanceCM (List.nth i Haptics.trigPins 0)
                          (List.nth i Haptics.echoPins 0) duration)))
        as [[E H] | [[E H] | [[E H] | [E H]]]];
        rewrite E in *; rewrite ?P1, ?P2, ?P3; lia.
Qed.

End PollFacts.


Section ParseFacts.

Variable toInt : list ascii -> Z.

Local Open Scope nat_scope.

Lemma skipn_nth (line : list ascii) (i : nat) :
  i < List.length line ->
  List.skipn i line = charAt line i :: List.skipn (S i) line.
Proof.
  revert i. induction line as [|ch line IH]; intros i H; [cbn in H; lia|].
  destruct i as [|i]; [reflexivity|].
  cbn [List.skipn]. unfold charAt. cbn [List.nth].
  apply IH. cbn in H. lia.
Qed.

Lemma firstn_exact (a b : list ascii) (n : nat) :
  n = List.length a -> List.firstn n (a ++ b) = a.
Proof.
  intros ->. rewrite List.firstn_app, List.firstn_all, Nat.sub_diag.
  cbn [List.firstn]. apply List.app_nil_r.
Qed.

Lemma commas_cons (ch : ascii) (line : list ascii) :
  commas (ch :: line) = (if is_comma ch then 1 else 0) + commas line.
Proof. unfold commas. cbn. now destruct (is_comma ch). Qed.

(** The loop stores at most one number per comma, and one more for the
    last character. *)
Lemma scan_bound (line : list ascii) (fuel i lastPos : nat)
  (values : list Z) :
  List.length (Haptics.scan toInt line fuel i lastPos values)
  <= List.length values + commas (List.skipn i line)
     + (if i <? List.length line then 1 else 0).
Proof.
  revert i lastPos values.
  induction fuel as [|fuel IH]; intros i lastPos values; [cbn; lia|].
  cbn [Haptics.scan].
  destruct (Nat.ltb_spec i (List.length line)) as [Hi|Hi];
    [|cbn [andb]; lia].
  destruct (List.length values <? 5); cbn [andb]; [|lia].
  rewrite (skipn_nth line i Hi), commas_cons.
  destruct (is_comma (charAt line i)) eqn:C; cbn [orb].
  - specialize (IH (S i) (S i)
                  (values ++ [toInt (substring lastPos (S i) line)])%list).
    rewrite List.length_app in IH. cbn [List.length] in IH.
    destruct (S i <? List.length line); lia.
  - destruct (Nat.eqb_spec i (List.length line - 1)) as [L|L].
    + specialize (IH (S i) (S i)
                    (values ++ [toInt (substring lastPos (S i) line)])%list).
      rewrite List.length_app in IH. cbn [List.length] in IH.
      rewrite List.skipn_all2 in IH by lia.
      destruct (Nat.ltb_spec (S i) (List.length line)); [lia|].
      cbn in IH. lia.
    + specialize (IH (S i) lastPos values).
      destruct (S i <? List.length line); lia.
Qed.

Lemma constrain_range (v : Z) : (0 <= constrain v 0 3 <= 3)%Z.
Proof.
  unfold constrain.
  destruct (Z.ltb_spec v 0); [lia|]. destruct (Z.ltb_spec 3 v); lia.
Qed.

Lemma parse_pattern_range (line : list ascii) (g : Haptics.Command) :
  (0 <= Haptics.vibrationPattern g <= 3)%Z ->
  (0 <= Haptics.vibrationPattern
          (Haptics.parseSerialCommand toInt line g) <= 3)%Z.
Proof.
  intros H. unfold Haptics.parseSerialCommand.
  destruct (_ =? 5); [apply constrain_range|exact H].
Qed.

(** X17.  A serial line with fewer than four commas is ignored: the
    object flags, the enable flag and the pattern stay as they were.
    This covers the empty line. *)
Theorem X17_short_line_is_ignored (line : list ascii) (g : Haptics.Command) :
  commas line < 4 ->
  Haptics.parseSerialCommand toInt line g = g.
Proof.
  intros H. unfold Haptics.parseSerialCommand.
  pose proof (scan_bound line (List.length line) 0 0 []) as B.
  cbn [List.length List.skipn] in B.
  destruct (Nat.eqb_spec
              (List.length (Haptics.scan toInt line (List.length line) 0 0 [])) 5)
    as [E|_]; [|reflexivity].
  destruct (0 <? List.length line); lia.
Qed.

(** Reading through one field that a comma ends. *)
Lemma scan_field (line pre post f2 : list ascii) :
  forall (f1 : list ascii) (fuel k : nat) (values : list Z),
  line = (pre ++ f1 ++ f2 ++ [","%char] ++ post)%list ->
  comma_free f2 ->
  List.length values < 5 ->
  fuel = List.length f2 + 1 + k ->
  Haptics.scan toInt line fuel (List.length pre + List.length f1) (List.length pre) values
  = Haptics.scan toInt line k (List.length pre + List.length f1 + List.length f2 + 1)
      (List.length pre + List.length f1 + List.length f2 + 1)
      (values ++ [toInt (f1 ++ f2 ++ [","%char])])%list.
Proof.
  induction f2 as [|ch f2 IH]; intros f1 fuel k values Hl Hc Hv Hf.
  - subst fuel. cbn [List.length Nat.add app Haptics.scan] in *.
    assert (Len : List.length pre + List.length f1 < List.length line).
    { rewrite Hl, !List.length_app. cbn. lia. }
    rewrite (proj2 (Nat.ltb_lt _ _) Len), (proj2 (Nat.ltb_lt _ _) Hv).
    cbn [andb].
    assert (Ch : charAt line (List.length pre + List.length f1) = ","%char).
    { unfold charAt. rewrite Hl, List.app_assoc.
      rewrite List.app_nth2 by (rewrite List.length_app; lia).
      rewrite List.length_app, Nat.sub_diag. reflexivity. }
    rewrite Ch. cbn [is_comma Ascii.eqb Bool.eqb orb].
    change (is_comma ","%char) with true. cbn [orb].
    replace (List.length pre + List.length f1 + 0 + 1)
      with (S (List.length pre + List.length f1)) by lia.
    do 3 f_equal. unfold substring.
    rewrite Nat.min_l, Nat.max_r by lia.
    rewrite Hl, List.skipn_app, List.skipn_all, Nat.sub_diag.
    cbn [app List.skipn].
    f_equal.
    replace (f1 ++ ","%char :: post)%list
      with ((f1 ++ [","%char]) ++ post)%list
      by (now rewrite <- List.app_assoc).
    apply firstn_exact. rewrite List.length_app. cbn [List.length]. lia.
  - subst fuel. inversion Hc as [|? ? Hch Hc']; subst.
    cbn [List.length Nat.add Haptics.scan].
    assert (Len : S (List.length pre + List.length f1)
                  < List.length (pre ++ f1 ++ (ch :: f2) ++ [","%char] ++ post)).
    { rewrite ?List.length_app. cbn [List.length app].
      rewrite ?List.length_app. cbn [List.length]. lia. }
    rewrite (proj2 (Nat.ltb_lt _ _)) by lia.
    rewrite (proj2 (Nat.ltb_lt _ _) Hv). cbn [andb].
    assert (Ch : charAt (pre ++ f1 ++ (ch :: f2) ++ [","%char] ++ post)
                   (List.length pre + List.length f1) = ch).
    { unfold charAt. rewrite List.app_assoc.
      rewrite List.app_nth2 by (rewrite List.length_app; lia).
      rewrite List.length_app, Nat.sub_diag. reflexivity. }
    rewrite Ch, Hch. cbn [orb].
    rewrite (proj2 (Nat.eqb_neq _ _)) by lia.
    specialize (IH (f1 ++ [ch])%list (List.length f2 + 1 + k) k values).
    rewrite List.length_app in IH. cbn [List.length] in IH.
    replace (S (List.length pre + List.length f1))
      with (List.length pre + (List.length f1 + 1)) by lia.
    rewrite IH; auto.
    + rewrite <- !List.app_assoc. cbn [app].
      replace (List.length pre + (List.length f1 + 1) + List.length f2 + 1)
        with (List.length pre + List.length f1 + S (List.length f2) + 1) by lia.
      reflexivity.
    + rewrite <- !List.app_assoc. reflexivity.
Qed.

(** Reading through the last field, which the end of the line ends. *)
Lemma scan_last_field (line pre f2 : list ascii) :
  forall (f1 : list ascii) (fuel k : nat) (values : list Z),
  line = (pre ++ f1 ++ f2)%list ->
  f2 <> [] ->
  comma_free f2 ->
  List.length values < 5 ->
  fuel = List.length f2 + k ->
  Haptics.scan toInt line fuel (List.length pre + List.length f1) (List.length pre) values
  = Haptics.scan toInt line k (List.length line) (List.length line)
      (values ++ [toInt (f1 ++ f2)])%list.
Proof.
  induction f2 as [|ch f2 IH]; intros f1 fuel k values Hl Hn Hc Hv Hf;
    [contradiction|].
  subst fuel. inversion Hc as [|? ? Hch Hc']; subst.
  cbn [List.length Nat.add Haptics.scan].
  assert (Len : List.length (pre ++ f1 ++ ch :: f2)
                = List.length pre + List.length f1 + S (List.length f2)).
  { rewrite !List.length_app. cbn. lia. }
  rewrite (proj2 (Nat.ltb_lt _ _)) by lia.
  rewrite (proj2 (Nat.ltb_lt _ _) Hv). cbn [andb].
  assert (Ch : charAt (pre ++ f1 ++ ch :: f2)
                 (List.length pre + List.length f1) = ch).
  { unfold charAt. rewrite List.app_assoc.
    rewrite List.app_nth2 by (rewrite List.length_app; lia).
    rewrite List.length_app, Nat.sub_diag. reflexivity. }
  rewrite Ch, Hch. cbn [orb].
  destruct f2 as [|ch2 f2].
  - rewrite (proj2 (Nat.eqb_eq _ _)) by (rewrite Len; cbn; lia).
    replace (S (List.length pre + List.length f1))
      with (List.length (pre ++ f1 ++ [ch])) by (rewrite Len; cbn; lia).
    do 3 f_equal. unfold substring.
    rewrite Nat.min_l, Nat.max_r by (rewrite Len; lia).
    rewrite List.skipn_app, List.skipn_all, Nat.sub_diag.
    cbn [app List.skipn]. f_equal. apply List.firstn_all2.
    rewrite Len, List.length_app. cbn. lia.
  - rewrite (proj2 (Nat.eqb_neq _ _)) by (rewrite Len; cbn; lia).
    specialize (IH (f1 ++ [ch])%list (List.length (ch2 :: f2) + k) k values).
    rewrite List.length_app in IH. cbn [List.length] in IH.
    cbn [List.length].
    replace (S (List.length pre + List.length f1))
      with (List.length pre + (List.length f1 + 1)) by lia.
    rewrite IH; auto; try discriminate.
    + rewrite <- !List.app_assoc. reflexivity.
    + rewrite <- !List.app_assoc. reflexivity.
Qed.

Lemma scan_end (line : list ascii) (k lastPos : nat) (values : list Z) :
  Haptics.scan toInt line k (List.length line) lastPos values = values.
Proof.
  destruct k; [reflexivity|]. cbn [Haptics.scan].
  now rewrite Nat.ltb_irrefl.
Qed.

Lemma scan_full (line : list ascii) (k i lastPos : nat) (values : list Z) :
  5 <= List.length values ->
  Haptics.scan toInt line k i lastPos values = values.
Proof.
  intros H. destruct k; [reflexivity|]. cbn [Haptics.scan].
  rewrite (proj2 (Nat.ltb_ge _ _) H). now rewrite Bool.andb_false_r.
Qed.

(** A whole field, from the character after the previous comma. *)
Lemma scan_whole_field (line pre f post : list ascii) (k : nat)
  (values : list Z) :
  line = (pre ++ f ++ ","%char :: post)%list ->
  comma_free f ->
  List.length values < 5 ->
  Haptics.scan toInt line (List.length f + 1 + k)
    (List.length pre) (List.length pre) values
  = Haptics.scan toInt line k
      (List.length (pre ++ f ++ [","%char]))
      (List.length (pre ++ f ++ [","%char]))
      (values ++ [toInt (f ++ [","%char])])%list.
Proof.
  intros Hl Hc Hv.
  pose proof (scan_field line pre post f [] (List.length f + 1 + k) k
                values Hl Hc Hv eq_refl) as E.
  cbn [List.length app] in E. rewrite Nat.add_0_r in E. rewrite E.
  rewrite !List.length_app. cbn [List.length].
  now rewrite !Nat.add_assoc.
Qed.

Lemma scan_whole_last_field (line pre f : list ascii) (k : nat)
  (values : list Z) :
  line = (pre ++ f)%list ->
  f <> [] ->
  comma_free f ->
  List.length values < 5 ->
  Haptics.scan toInt line (List.length f + k) (List.length pre)
    (List.length pre) values
  = (values ++ [toInt f])%list.
Proof.
  intros Hl Hn Hc Hv.
  pose proof (scan_last_field line pre f [] (List.length f + k) k values
                Hl Hn Hc Hv eq_refl) as E.
  cbn [List.length app] in E. rewrite Nat.add_0_r in E. rewrite E.
  apply scan_end.
Qed.

(** The numbers the loop stores for a line that starts with four
    fields, each ended by a comma. *)
Lemma scan_four_fields (f0 f1 f2 f3 rest : list ascii) (k : nat) :
  comma_free f0 -> comma_free f1 -> comma_free f2 -> comma_free f3 ->
  let line := five_fields f0 f1 f2 f3 rest in
  let pre := ((((([] ++ f0 ++ [","%char]) ++ f1 ++ [","%char])
                 ++ f2 ++ [","%char]) ++ f3 ++ [","%char]))%list in
  Haptics.scan toInt line
    (List.length f0 + 1 + (List.length f1 + 1
       + (List.length f2 + 1 + (List.length f3 + 1 + k)))) 0 0 []
  = Haptics.scan toInt line k (List.length pre) (List.length pre)
      [toInt (f0 ++ [","%char]); toInt (f1 ++ [","%char]);
       toInt (f2 ++ [","%char]); toInt (f3 ++ [","%char])]
    /\ line = (pre ++ rest)%list.
Proof.
  intros C0 C1 C2 C3 line pre. subst line pre. unfold five_fields.
  split; [|cbn [app]; now rewrite <- !List.app_assoc].
  etransitivity.
  { apply (scan_whole_field _ [] f0
             (f1 ++ [","%char] ++ f2 ++ [","%char] ++ f3 ++ [","%char]
                ++ rest) _ []);
      [reflexivity|assumption|cbn; lia]. }
  etransitivity.
  { apply (scan_whole_field _ ([] ++ f0 ++ [","%char]) f1
             (f2 ++ [","%char] ++ f3 ++ [","%char] ++ rest));
      [cbn [app]; now rewrite <- !List.app_assoc|assumption|cbn; lia]. }
  etransitivity.
  { apply (scan_whole_field _
             (([] ++ f0 ++ [","%char]) ++ f1 ++ [","%char]) f2
             (f3 ++ [","%char] ++ rest));
      [cbn [app]; now rewrite <- !List.app_assoc|assumption|cbn; lia]. }
  etransitivity.
  { apply (scan_whole_field _
             ((([] ++ f0 ++ [","%char]) ++ f1 ++ [","%char])
                ++ f2 ++ [","%char]) f3 rest);
      [cbn [app]; now rewrite <- !List.app_assoc|assumption|cbn; lia]. }
  reflexivity.
Qed.

Lemma five_fields_length (f0 f1 f2 f3 rest : list ascii) :
  List.length (five_fields f0 f1 f2 f3 rest)
  = List.length f0 + 1 + (List.length f1 + 1
      + (List.length f2 + 1 + (List.length f3 + 1 + List.length rest))).
Proof.
  unfold five_fields. rewrite !List.length_app. cbn [List.length]. lia.
Qed.

(** X18.  A line of five comma-separated fields sets the command: the
    object flags are the numbers of the first three fields, the enable
    flag that of the fourth, the pattern that of the fifth clamped to
    0..3.  The text handed to [toInt] for each of the first four fields
    includes the comma that ends it; the last field is converted as it
    is.  Whatever follows a fifth comma is never looked at. *)
Theorem X18_five_fields_set_the_command
  (f0 f1 f2 f3 f4 rest : list ascii) (g : Haptics.Command) :
  comma_free f0 -> comma_free f1 -> comma_free f2 -> comma_free f3 ->
  comma_free f4 ->
  let flags := [toInt (f0 ++ [","%char]); toInt (f1 ++ [","%char]);
                toInt (f2 ++ [","%char])]%list in
  (f4 <> [] ->
   Haptics.parseSerialCommand toInt (five_fields f0 f1 f2 f3 f4) g
   = {| Haptics.obj := flags;
        Haptics.vibrationEnabled := toInt (f3 ++ [","%char]);
        Haptics.vibrationPattern := constrain (toInt f4) 0 3 |})
  /\ Haptics.parseSerialCommand toInt
       (five_fields f0 f1 f2 f3 (f4 ++ ","%char :: rest)) g
     = {| Haptics.obj := flags;
          Haptics.vibrationEnabled := toInt (f3 ++ [","%char]);
          Haptics.vibrationPattern :=
            constrain (toInt (f4 ++ [","%char])) 0 3 |}.
Proof.
  intros C0 C1 C2 C3 C4 flags. subst flags.
  unfold Haptics.parseSerialCommand. split.
  - intros N4. rewrite five_fields_length.
    replace (List.length f4) with (List.length f4 + 0) by lia.
    pose proof (scan_four_fields f0 f1 f2 f3 f4 (List.length f4 + 0)
                  C0 C1 C2 C3) as H.
    cbv zeta in H. destruct H as [E L]. rewrite E.
    rewrite (scan_whole_last_field _ _ f4 0 _ L N4 C4) by (cbn; lia).
    reflexivity.
  - rewrite five_fields_length, List.length_app. cbn [List.length].
    replace (List.length f4 + S (List.length rest))
      with (List.length f4 + 1 + List.length rest) by lia.
    pose proof (scan_four_fields f0 f1 f2 f3 (f4 ++ ","%char :: rest)
                  (List.length f4 + 1 + List.length rest)
                  C0 C1 C2 C3) as H.
    cbv zeta in H. destruct H as [E L]. rewrite E.
    rewrite (scan_whole_field _ _ f4 rest (List.length rest) _ L C4)
      by (cbn; lia).
    rewrite scan_full by (cbn; lia).
    reflexivity.
Qed.

(** X19.  Four fields, each ended by a comma, and nothing after the
    fourth comma: the loop stores four numbers only, and the line is
    ignored although it holds four commas. *)
Theorem X19_missing_fifth_field_is_ignored
  (f0 f1 f2 f3 : list ascii) (g : Haptics.Command) :
  comma_free f0 -> comma_free f1 -> comma_free f2 -> comma_free f3 ->
  Haptics.parseSerialCommand toInt (five_fields f0 f1 f2 f3 []) g = g.
Proof.
  intros C0 C1 C2 C3. unfold Haptics.parseSerialCommand.
  rewrite five_fields_length. cbn [List.length].
  pose proof (scan_four_fields f0 f1 f2 f3 [] 0 C0 C1 C2 C3) as H.
  cbv zeta in H. destruct H as [E _]. rewrite E.
  reflexivity.
Qed.

End ParseFacts.

Section LoopFacts.

Context {F : Type} {ops : FloatOps F} {conv : FloatToLong F}.
Variable toInt : list ascii -> Z.

Local Open Scope Z_scope.

Lemma delayed_app (a b : list Action) :
  delayed (a ++ b) = delayed a + delayed b.
Proof.
  induction a as [|x a IH]; [reflexivity|].
  destruct x; cbn [app delayed]; rewrite ?IH; lia.
Qed.

Lemma pattern_delay (pin pwm pattern : Z) :
  0 <= delayed (Haptics.applyVibrationPattern pin pwm pattern) <= 350.
Proof.
  destruct pattern as [|p|p]; [cbn; lia| |cbn; lia].
  destruct p as [[q|q|]|[q|q|]|]; cbn; lia.
Qed.

Lemma poll_delay (g : Haptics.Command) (i : nat) (duration : Z) :
  60 <= delayed (snd (Haptics.poll g i duration)) <= 410.
Proof.
  unfold Haptics.poll. cbn [snd Haptics.getDistanceCM].
  rewrite !delayed_app.
  change (delayed (Haptics.trigger_pulse _)) with 0.
  change (delayed [Delay 60]) with 60.
  destruct (_ && _ && _)%bool.
  - match goal with
    | |- context [delayed (Haptics.applyVibrationPattern ?a ?b ?c)] =>
        pose proof (pattern_delay a b c)
    end.
    lia.
  - cbn. lia.
Qed.

Lemma loop_writes (p : Haptics.Pass) (g : Haptics.Command) :
  let g1 := fst (Haptics.loop toInt p g) in
  analog_writes (snd (Haptics.loop toInt p g))
  = (analog_writes (snd (Haptics.poll g1 0 (Haptics.echo p 0%nat)))
     ++ analog_writes (snd (Haptics.poll g1 1 (Haptics.echo p 1%nat)))
     ++ analog_writes (snd (Haptics.poll g1 2 (Haptics.echo p 2%nat))))%list.
Proof.
  cbv zeta. unfold Haptics.loop. cbn [fst snd].
  rewrite !analog_writes_app. cbn [analog_writes].
  now rewrite List.app_nil_r.
Qed.

Lemma loop_safe (p : Haptics.Pass) (g : Haptics.Command) :
  Forall safe_write (analog_writes (snd (Haptics.loop toInt p g))).
Proof.
  rewrite loop_writes. cbv zeta.
  repeat (apply Forall_app; split); apply poll_safe; lia.
Qed.

Lemma loop_pattern_range (p : Haptics.Pass) (g : Haptics.Command) :
  0 <= Haptics.vibrationPattern g <= 3 ->
  0 <= Haptics.vibrationPattern (fst (Haptics.loop toInt p g)) <= 3.
Proof.
  intros H. unfold Haptics.loop. cbn [fst].
  destruct (Haptics.incoming p); [now apply parse_pattern_range|exact H].
Qed.

Lemma parse_flags_length (line : list ascii) (g : Haptics.Command) :
  List.length (Haptics.obj g) = 3%nat ->
  List.length (Haptics.obj (Haptics.parseSerialCommand toInt line g))
  = 3%nat.
Proof.
  intros H. unfold Haptics.parseSerialCommand.
  destruct (Nat.eqb_spec
              (List.length
                 (Haptics.scan toInt line (List.length line) 0 0 [])) 5)
    as [E|_]; [|exact H].
  cbn [Haptics.obj]. rewrite List.length_firstn, E. reflexivity.
Qed.

Lemma loop_flags_length (p : Haptics.Pass) (g : Haptics.Command) :
  List.length (Haptics.obj g) = 3%nat ->
  List.length (Haptics.obj (fst (Haptics.loop toInt p g))) = 3%nat.
Proof.
  intros H. unfold Haptics.loop. cbn [fst].
  destruct (Haptics.incoming p); [now apply parse_flags_length|exact H].
Qed.

Lemma run_invariant (ps : list Haptics.Pass) (g : Haptics.Command) :
  0 <= Haptics.vibrationPattern g <= 3 ->
  List.length (Haptics.obj g) = 3%nat ->
  Forall safe_write (analog_writes (snd (Haptics.run toInt ps g)))
  /\ 0 <= Haptics.vibrationPattern (fst (Haptics.run toInt ps g)) <= 3
  /\ List.length (Haptics.obj (fst (Haptics.run toInt ps g))) = 3%nat.
Proof.
  revert g. induction ps as [|p ps IH]; intros g Hp Hl.
  - cbn. repeat split; try lia; auto.
  - cbn [Haptics.run fst snd].
    destruct (IH (fst (Haptics.loop toInt p g))
                (loop_pattern_range p g Hp) (loop_flags_length p g Hl))
      as (S1 & S2 & S3).
    repeat split; try lia; auto.
    rewrite analog_writes_app. apply Forall_app. split; [|exact S1].
    apply loop_safe.
Qed.

Lemma setup_writes :
  analog_writes Haptics.setup = [(11, 0); (9, 0); (3, 0)].
Proof. reflexivity. Qed.

(** X15.  From power-up on, whatever arrives on the serial port and
    whatever the sensors measure, every [analogWrite] goes to one of the
    three motor pins with a duty from the table 0, 130, 175, 255; the
    pattern number stays within 0..3 and there are always three object
    flags.  The first three writes are those of [setup()], which
    switches each motor off. *)
Theorem X15_only_motors_with_table_duties (ps : list Haptics.Pass) :
  let r := Haptics.power_up toInt ps in
  Forall safe_write (analog_writes (snd r))
  /\ 0 <= Haptics.vibrationPattern (fst r) <= 3
  /\ List.length (Haptics.obj (fst r)) = 3%nat
  /\ List.firstn 3 (analog_writes (snd r))
     = List.map (fun pin => (pin, 0)) Haptics.motorPins.
Proof.
  cbv zeta. unfold Haptics.power_up. cbn [fst snd].
  destruct (run_invariant ps Haptics.start) as (S1 & S2 & S3);
    [cbn; lia|reflexivity|].
  rewrite analog_writes_app, setup_writes.
  split; [|split; [exact S2|split; [exact S3|reflexivity]]].
  apply Forall_app. split; [|exact S1].
  repeat (constructor; [split; cbn; auto 6|]). constructor.
Qed.

(** X20.  One pass of [loop()] spends between 1180 and 2230 ms in
    [delay()], whatever the command and the measurements; with the
    continuous pattern 0 it is exactly 1180 ms.  A serial line is read
    at the start of a pass only, so two commands are taken at least
    that far apart. *)
Theorem X20_pass_duration (p : Haptics.Pass) (g : Haptics.Command) :
  let r := Haptics.loop toInt p g in
  1180 <= delayed (snd r) <= 2230
  /\ (Haptics.vibrationPattern (fst r) = 0 -> delayed (snd r) = 1180).
Proof.
  cbv zeta. unfold Haptics.loop. cbn [fst snd].
  set (g1 := match Haptics.incoming p with
             | Some line => Haptics.parseSerialCommand toInt line g
             | None => g
             end).
  rewrite !delayed_app.
  pose proof (poll_delay g1 0 (Haptics.echo p 0%nat)) as D0.
  pose proof (poll_delay g1 1 (Haptics.echo p 1%nat)) as D1.
  pose proof (poll_delay g1 2 (Haptics.echo p 2%nat)) as D2.
  cbn [delayed]. split; [lia|].
  intros P0. unfold Haptics.poll. cbn [snd Haptics.getDistanceCM].
  rewrite !delayed_app, P0.
  change (delayed (Haptics.trigger_pulse _)) with 0.
  repeat match goal with
         | |- context [if ?b then _ else _] => destruct b
         end; cbn; lia.
Qed.

(** X21.  With vibration enabled, every object flag set and the
    continuous pattern selected, and no line waiting on the serial
    port, a pass of the extended sketch drives the motors exactly as a
    pass of the first sketch does, and blocks as long. *)
Theorem X21_extended_sketch_refines_first
  (p : Haptics.Pass) (g : Haptics.Command) :
  Haptics.incoming p = None ->
  Haptics.vibrationEnabled g <> 0 ->
  (forall i, (i < 3)%nat -> List.nth i (Haptics.obj g) 0 <> 0) ->
  Haptics.vibrationPattern g = 0 ->
  fst (Haptics.loop toInt p g) = g
  /\ analog_writes (snd (Haptics.loop toInt p g))
     = analog_writes (Jan17a.loop (Haptics.echo p))
  /\ delayed (snd (Haptics.loop toInt p g))
     = delayed (Jan17a.loop (Haptics.echo p)).
Proof.
  intros Hi He Ho Hp.
  assert (G : fst (Haptics.loop toInt p g) = g).
  { unfold Haptics.loop. cbn [fst]. now rewrite Hi. }
  assert (W : forall i d, (i < 3)%nat ->
            analog_writes (snd (Haptics.poll g i d))
            = analog_writes (Jan17a.poll i d)
            /\ delayed (snd (Haptics.poll g i d))
               = delayed (Jan17a.poll i d)).
  { intros i d Hlt. unfold Haptics.poll, Jan17a.poll. cbn [snd].
    rewrite !analog_writes_app, !delayed_app, Hp.
    destruct (Z.eqb_spec (Haptics.vibrationEnabled g) 0); [contradiction|].
    destruct (Z.eqb_spec (List.nth i (Haptics.obj g) 0) 0);
      [now apply Ho in Hlt|].
    cbn [negb andb].
    set (dist := fst (Haptics.getDistanceCM _ _ d)).
    destruct (Z.ltb_spec 0 (Haptics.getVibrationLevel dist)) as [L|L].
    - split; reflexivity.
    - assert (E : Haptics.getVibrationLevel dist = 0).
      { destruct (level_cases dist) as [[E H] | [[E H] | [[E H] | [E H]]]];
          rewrite E in *; lia. }
      rewrite E. split; reflexivity. }
  split; [exact G|].
  rewrite loop_writes, G. cbv zeta.
  unfold Haptics.loop, Jan17a.loop. cbn [fst snd]. rewrite Hi.
  rewrite !analog_writes_app, !delayed_app.
  destruct (W 0%nat (Haptics.echo p 0%nat)) as [W0 D0]; [lia|].
  destruct (W 1%nat (Haptics.echo p 1%nat)) as [W1 D1]; [lia|].
  destruct (W 2%nat (Haptics.echo p 2%nat)) as [W2 D2]; [lia|].
  rewrite W0, W1, W2, D0, D1, D2. cbn [analog_writes delayed].
  rewrite List.app_nil_r. split; [reflexivity|lia].
Qed.

End LoopFacts.

Section DistanceFacts.

Local Open Scope Z_scope.

(** Truncating a non-negative quotient of integers. *)
Lemma Rtrunc_quotient (a b : Z) :
  0 <= a -> 0 < b -> Rtrunc (IZR a / IZR b) = a / b.
Proof.
  intros Ha Hb.
  assert (Rb : (0 < IZR b)%R) by now apply IZR_lt.
  assert (Ra : (0 <= IZR a)%R) by now apply IZR_le.
  assert (Rq : (0 <= IZR a / IZR b)%R).
  { apply Rle_mult_inv_pos; assumption. }
  unfold Rtrunc. destruct (Rle_dec 0 (IZR a / IZR b)) as [_|N];
    [|contradiction].
  destruct (base_Int_part (IZR a / IZR b)) as [Lo Hi].
  set (n := Int_part (IZR a / IZR b)) in *.
  assert (L : (IZR n * IZR b <= IZR a)%R).
  { apply (Rmult_le_compat_r (IZR b)) in Lo; [|lra].
    unfold Rdiv in Lo. rewrite Rmult_assoc, Rinv_l, Rmult_1_r in Lo; lra. }
  assert (U : (IZR a < (IZR n + 1) * IZR b)%R).
  { assert (Hi' : (IZR a / IZR b < IZR n + 1)%R) by lra.
    apply (Rmult_lt_compat_r (IZR b)) in Hi'; [|lra].
    unfold Rdiv in Hi'. rewrite Rmult_assoc, Rinv_l, Rmult_1_r in Hi'; lra. }
  rewrite <- mult_IZR in L. apply le_IZR in L.
  rewrite <- (plus_IZR n 1), <- mult_IZR in U. apply lt_IZR in U.
  apply (Z.div_unique_pos a b n (a - n * b)); lia.
Qed.

Lemma distance_real (trig echo duration : Z) :
  fst (Haptics.getDistanceCM (F := R) trig echo duration)
  = if duration =? 0 then -1
    else Rtrunc (IZR (17 * duration) / IZR 1000).
Proof.
  unfold Haptics.getDistanceCM. cbn [fst].
  destruct (duration =? 0); [reflexivity|].
  cbn [to_long RealToLong fdiv fmul of_Z flit RealOps].
  f_equal. unfold Q2R. cbn [Qnum Qden]. rewrite mult_IZR.
  change (IZR (Z.pos 1000)) with (IZR 1000). field.
Qed.

(** X22.  In exact real arithmetic, an echo of [duration] microseconds
    gives the distance [17 * duration / 1000] centimetres, rounded down:
    never negative, so the marker -1 means a timeout and nothing else.
    The vibration level is therefore 0 exactly when the echo timed out
    or lasted 5942 microseconds or more. *)
Theorem X22_distance_in_exact_arithmetic (trig echo duration : Z) :
  0 <= duration ->
  let d := fst (Haptics.getDistanceCM (F := R) trig echo duration) in
  (duration = 0 -> d = -1)
  /\ (0 < duration -> d = 17 * duration / 1000 /\ 0 <= d)
  /\ (Haptics.getVibrationLevel d = 0 <-> duration = 0 \/ 5942 <= duration).
Proof.
  intros H. cbv zeta. rewrite distance_real.
  destruct (Z.eqb_spec duration 0) as [E|E].
  - subst duration. repeat split; intros; try lia; auto.
  - rewrite Rtrunc_quotient by lia.
    pose proof (Z.div_mod (17 * duration) 1000 ltac:(lia)) as DM.
    pose proof (Z.mod_pos_bound (17 * duration) 1000 ltac:(lia)) as MB.
    set (q := 17 * duration / 1000) in *.
    set (r := (17 * duration) mod 1000) in *.
    split; [intros; contradiction|].
    split; [intros _; split; [reflexivity|lia]|].
    destruct (level_cases q)
      as [[L C] | [[L C] | [[L C] | [L C]]]]; rewrite L; split;
      intros; try discriminate; lia.
Qed.

End DistanceFacts.

(* ================================================================== *)
(** * Instances of the further properties *)

(** The fall detector, on the concrete runs. *)

Lemma first_stillness_facts :
  let g := fst (loop (at_ms 1400) tumble armed_at_1s) in
  state g = IMPACT_DETECTED
  /\ too_early (at_ms 1500) g = false
  /\ stillStartTime g = 0%Z
  /\ angle_exceeded (sampled (at_ms 1500) resting g) = true
  /\ still resting = true
  /\ timed_out (at_ms 1500) g = false
  /\ confirms (at_ms 1500) resting g = false.
Proof.
  destruct tumble_at_1400 as (p & Hp & E). rewrite E. cbn [fst].
  assert (A : angle_exceeded
                (sampled (at_ms 1500) resting
                   (snapshot IMPACT_DETECTED 1400 1000 0 p)) = true).
  { unfold resting. rewrite sampled_snapshot by (lra || lia).
    rewrite angle_snapshot. apply tilted_true. settle. }
  assert (S : still resting = true).
  { unfold resting. rewrite still_level. apply quiet_true; lra. }
  assert (G : too_early (at_ms 1500)
                (snapshot IMPACT_DETECTED 1400 1000 0 p) = false)
    by (apply gate_snapshot; lia).
  split; [reflexivity|]. split; [exact G|]. split; [reflexivity|].
  split; [exact A|]. split; [exact S|]. split; [reflexivity|].
  rewrite (proj1 (timer_starts_afresh (at_ms 1500) resting
                    (snapshot IMPACT_DETECTED 1400 1000 0 p)
                    eq_refl G eq_refl A S)).
  reflexivity.
Qed.

Lemma lying_still_pass p :
  54 < p < 56 ->
  loop (at_ms 13501) resting (snapshot IMPACT_DETECTED 10500 10000 10500 p) =
    (snapshot POST_FALL 13501 10000 10500 (next_pitch p 0 3001),
     triggerFall).
Proof.
  intros Hp. unfold resting. armed_step. reflexivity.
Qed.

(** X1, after the first impact of a run. *)
Lemma X1_witness :
  state (@initial R _) = NORMAL
  /\ state (fst (loop (at_ms 1000) jolt initial)) = IMPACT_DETECTED
  /\ stillStartTime (fst (loop (at_ms 1000) jolt initial)) = 0%Z.
Proof.
  pose proof (X1_episode_opens_with_clear_timer
                (F := R) [] (at_ms 1000) jolt) as H.
  cbv zeta in H. destruct H as [_ H].
  split; [reflexivity|]. split; [exact armed_at_1s_state|].
  exact (H eq_refl armed_at_1s_state).
Defined.


(** X3, when the device comes to rest 0.5 s after the impact at 1 s. *)
Lemma X3_witness :
  let g := fst (loop (at_ms 1400) tumble armed_at_1s) in
  let g1 := fst (loop (at_ms 1500) resting g) in
  stillStartTime g = 0%Z
  /\ state g1 = IMPACT_DETECTED
  /\ stillStartTime g1 = 1500%Z.
Proof.
  destruct first_stillness_facts as (St & G & T0 & A & S & To & Cf).
  cbv zeta.
  pose proof (X3_timer_start_and_zero_reading
                (at_ms 1500) resting _ (at_ms 4501) resting
                St G T0 A S To Cf) as H.
  cbv zeta in H. destruct H as (S1 & T1 & _).
  split; [exact T0|]. split; [exact S1|exact T1].
Defined.

(** X6, on the fall that is confirmed 3.501 s after the impact at 10 s. *)
Lemma X6_witness :
  let g := fst (run fall_prefix initial) in
  fall_count (snd (loop (at_ms 13501) resting g)) = 1%nat
  /\ state g = IMPACT_DETECTED
  /\ (impactTime g + INACTIVITY_TIME_MS < 13501)%Z.
Proof.
  cbv zeta.
  assert (C : chronological 0 (fall_prefix ++ [(at_ms 13501, resting)])).
  { unfold fall_prefix. cbn [app chronological]. unfold ordered, at_ms.
    fields. rewrite ulong_modulus_value. lia. }
  assert (F1 : fall_count
                 (snd (loop (at_ms 13501) resting
                         (fst (run fall_prefix initial)))) = 1%nat).
  { destruct fall_prefix_run as (p & Hp & E). rewrite E. cbn [fst].
    rewrite (lying_still_pass p Hp). reflexivity. }
  pose proof (X6_no_fall_within_inactivity_time
                fall_prefix (at_ms 13501) resting C) as H.
  cbv zeta in H. destruct (H F1) as [St Lt].
  split; [exact F1|]. split; [exact St|exact Lt].
Defined.

(** X7, on the pass that confirms a fall. *)
Lemma X7_witness :
  let g := fst (loop (at_ms 2500) sway_back
                  (fst (run early_stillness armed_at_1s))) in
  state (fst (loop (at_ms 4501) sway_forth g)) = POST_FALL
  /\ (state g = POST_FALL
      \/ (state g = IMPACT_DETECTED
          /\ snd (loop (at_ms 4501) sway_forth g) = triggerFall)).
Proof.
  destruct sway_facts
    as (_ & _ & _ & _ & _ & _ & _ & _ & _ & _ & S2 & _).
  cbv zeta.
  pose proof (X7_transitions_never_taken (at_ms 4501) sway_forth
                (fst (loop (at_ms 2500) sway_back
                        (fst (run early_stillness armed_at_1s))))) as H.
  cbv zeta in H. destruct H as (_ & _ & H).
  split; [exact S2|exact (H S2)].
Defined.

Lemma elapsed_at_1400 : elapsed (at_ms 1400) armed_at_1s = 0.4.
Proof.
  rewrite armed_at_1s_snapshot. unfold elapsed, snapshot, at_ms. fields.
  cbn [of_Z flit fdiv RealOps].
  change (usub (1000 * 1400) (1000 * 1000)) with 400000%Z.
  unfold Q2R. cbn [Qnum Qden]. lra.
Qed.

(** X10, for the pass 0.4 s after the impact, pitching at 2.5 rad/s. *)
Lemma X10_witness :
  Rabs (y (gyro tumble) * elapsed (at_ms 1400) armed_at_1s * 57.2958) <= 58
  /\ Rabs (pitch (fst (loop (at_ms 1400) tumble armed_at_1s)))
     <= 49 * 58 + 57.2958 * (PI / 2)
  /\ Rabs (roll (fst (loop (at_ms 1400) tumble armed_at_1s)))
     <= 49 * 58 + 57.2958 * PI.
Proof.
  pose proof PI_RGT_0 as Ppos.
  assert (H1 : Rabs (y (gyro tumble) * elapsed (at_ms 1400) armed_at_1s
                     * 57.2958) <= 58).
  { rewrite elapsed_at_1400. unfold tumble, level. cbn [gyro y].
    rewrite Rabs_pos_eq; lra. }
  assert (H2 : Rabs (x (gyro tumble) * elapsed (at_ms 1400) armed_at_1s
                     * 57.2958) <= 58).
  { rewrite elapsed_at_1400. unfold tumble, level. cbn [gyro x].
    rewrite Rabs_pos_eq; lra. }
  assert (H3 : Rabs (pitch armed_at_1s) <= 49 * 58 + 57.2958 * (PI / 2)).
  { rewrite armed_at_1s_snapshot. unfold snapshot. fields.
    rewrite Rabs_R0. lra. }
  assert (H4 : Rabs (roll armed_at_1s) <= 49 * 58 + 57.2958 * PI).
  { rewrite armed_at_1s_snapshot. unfold snapshot. fields.
    rewrite Rabs_R0. lra. }
  split; [exact H1|].
  exact (X10_orientation_stays_bounded (at_ms 1400) tumble armed_at_1s 58
           H1 H2 H3 H4).
Defined.

(** X11, for a device lying on its side: three passes from a level
    estimate. *)
Lemma X11_witness :
  let pr := Nat.iter 3 (fun q => filter 0.005 on_side (fst q) (snd q))
              (0, 0) in
  fst pr - pitchAcc on_side = 0.98 ^ 3 * (0 - pitchAcc on_side)
  /\ snd pr - rollAcc on_side = 0.98 ^ 3 * (0 - rollAcc on_side).
Proof.
  assert (Hy : y (gyro on_side) * 0.005 = 0)
    by (unfold on_side; cbn [gyro y]; lra).
  assert (Hx : x (gyro on_side) * 0.005 = 0)
    by (unfold on_side; cbn [gyro x]; lra).
  exact (X11_estimate_converges_when_not_rotating 0.005 on_side 0 0 3
           Hy Hx).
Defined.

(** The obstacle sketches. *)

Lemma distance_1ms (trig echo : Z) :
  fst (Haptics.getDistanceCM (F := R) trig echo 1000) = 17%Z.
Proof.
  rewrite distance_real. cbn [Z.eqb].
  change (17 * 1000)%Z with 17000%Z.
  rewrite Rtrunc_quotient by lia. reflexivity.
Qed.

(** X13, for obstacles at 20 cm and 80 cm. *)
Lemma X13_witness :
  (Haptics.getVibrationLevel 80 <= Haptics.getVibrationLevel 20)%Z
  /\ (Haptics.pwm_of (Haptics.getVibrationLevel 80)
      <= Haptics.pwm_of (Haptics.getVibrationLevel 20))%Z.
Proof.
  destruct (X13_nearer_is_never_weaker 20 80) as (A & B & _);
    [lia|lia|lia|].
  split; [exact A|exact B].
Defined.

(** X14, for the double pulse on the first motor at full duty. *)
Lemma X14_witness :
  let acts := Haptics.applyVibrationPattern 11 255 3 in
  List.hd_error (analog_writes acts) = Some (11, 255)%Z
  /\ List.last (analog_writes acts) (11, 255)%Z = (11, 0)%Z
  /\ (0 <= delayed acts <= 350)%Z.
Proof.
  pose proof (X14_vibration_patterns 11 255 3) as H.
  cbv zeta in H. destruct H as [H _].
  assert (R3 : (0 <= 3 <= 3)%Z) by lia.
  destruct (H R3) as (A & _ & B & C).
  assert (N : (3 <> 0)%Z) by lia.
  cbv zeta. split; [exact A|]. split; [exact (B N)|exact C].
Defined.

(** X16, for the first sensor: an echo that timed out, and an obstacle
    at 17 cm. *)
Lemma X16_witness :
  analog_writes (snd (Haptics.poll (F := R) all_on 0 0)) = [(11, 0)%Z]
  /\ List.hd_error (analog_writes (snd (Haptics.poll (F := R) all_on 0 1000)))
     = Some (11, 255)%Z.
Proof.
  pose proof (X16_motor_off_without_cause (F := R) all_on 0 0) as H.
  cbv zeta in H. destruct H as [H _].
  pose proof (X16_motor_off_without_cause (F := R) all_on 0 1000) as K.
  cbv zeta in K. destruct K as [_ K].
  rewrite distance_1ms in K.
  assert (E1 : Haptics.vibrationEnabled all_on <> 0%Z) by discriminate.
  assert (E2 : List.nth 0 (Haptics.obj all_on) 0%Z <> 0%Z) by discriminate.
  assert (E3 : (0 < Haptics.getVibrationLevel 17)%Z) by reflexivity.
  assert (E4 : (0 <= Haptics.vibrationPattern all_on <= 3)%Z)
    by (cbn; lia).
  split; [exact (H (or_intror (or_intror eq_refl)))|].
  exact (proj1 (K E1 E2 E3 E4)).
Defined.

(** X17, for a line of three fields. *)
Lemma X17_witness :
  (commas (chars "1,0,1") < 4)%nat
  /\ Haptics.parseSerialCommand toInt_atol (chars "1,0,1") all_on = all_on.
Proof.
  assert (H : (commas (chars "1,0,1") < 4)%nat) by (cbn; lia).
  split; [exact H|].
  exact (X17_short_line_is_ignored toInt_atol (chars "1,0,1") all_on H).
Defined.

Lemma digits_comma_free :
  comma_free (chars "0") /\ comma_free (chars "1")
  /\ comma_free (chars "2") /\ comma_free (chars "7").
Proof. repeat split; repeat constructor. Qed.

(** X18, for the lines [1,0,1,1,2] and [0,1,0,0,7,5]. *)
Lemma X18_witness :
  Haptics.parseSerialCommand toInt_atol (chars "1,0,1,1,2") Haptics.start
  = {| Haptics.obj := [1; 0; 1]%Z; Haptics.vibrationEnabled := 1;
       Haptics.vibrationPattern := 2 |}
  /\ Haptics.parseSerialCommand toInt_atol (chars "0,1,0,0,7,5")
       Haptics.start
     = {| Haptics.obj := [0; 1; 0]%Z; Haptics.vibrationEnabled := 0;
          Haptics.vibrationPattern := 3 |}.
Proof.
  destruct digits_comma_free as (C0 & C1 & C2 & C7).
  assert (N : chars "2" <> []) by discriminate.
  split.
  - exact (proj1 (X18_five_fields_set_the_command toInt_atol
                    (chars "1") (chars "0") (chars "1") (chars "1")
                    (chars "2") [] Haptics.start C1 C0 C1 C1 C2) N).
  - exact (proj2 (X18_five_fields_set_the_command toInt_atol
                    (chars "0") (chars "1") (chars "0") (chars "0")
                    (chars "7") (chars "5") Haptics.start C0 C1 C0 C0 C7)).
Defined.

(** X19, for the line [1,0,1,1,]. *)
Lemma X19_witness :
  commas (chars "1,0,1,1,") = 4%nat
  /\ Haptics.parseSerialCommand toInt_atol (chars "1,0,1,1,") all_on
     = all_on.
Proof.
  destruct digits_comma_free as (C0 & C1 & _).
  split; [reflexivity|].
  exact (X19_missing_fifth_field_is_ignored toInt_atol
           (chars "1") (chars "0") (chars "1") (chars "1") all_on
           C1 C0 C1 C1).
Defined.

(** X20, for the continuous pattern. *)
Lemma X20_witness :
  delayed (snd (Haptics.loop (F := R) toInt_atol echo_1ms all_on)) = 1180%Z.
Proof.
  pose proof (X20_pass_duration (F := R) toInt_atol echo_1ms all_on) as H.
  cbv zeta in H. destruct H as [_ H].
  exact (H eq_refl).
Defined.

(** X21, with every flag set. *)
Lemma X21_witness :
  analog_writes (snd (Haptics.loop (F := R) toInt_atol echo_1ms all_on))
  = analog_writes (Jan17a.loop (F := R) (Haptics.echo echo_1ms)).
Proof.
  assert (E : Haptics.vibrationEnabled all_on <> 0%Z) by discriminate.
  assert (O : forall i, (i < 3)%nat ->
                List.nth i (Haptics.obj all_on) 0%Z <> 0%Z).
  { intros i Hi. destruct i as [|[|[|i]]]; cbn; try discriminate. lia. }
  destruct (X21_extended_sketch_refines_first (F := R) toInt_atol
              echo_1ms all_on eq_refl E O eq_refl) as (_ & W & _).
  exact W.
Defined.

(** X22, for an echo of one millisecond. *)
Lemma X22_witness :
  fst (Haptics.getDistanceCM (F := R) 13 12 1000) = 17%Z
  /\ Haptics.getVibrationLevel
       (fst (Haptics.getDistanceCM (F := R) 13 12 1000)) <> 0%Z.
Proof.
  assert (H : (0 <= 1000)%Z) by lia.
  pose proof (X22_distance_in_exact_arithmetic 13 12 1000 H) as K.
  cbv zeta in K. destruct K as (_ & D & L).
  assert (P : (0 < 1000)%Z) by lia.
  split; [exact (proj1 (D P))|].
  intros Z0. apply L in Z0. lia.
Defined.
